(** * llm_benchmark.py: a shallow embedding and the properties of its
      settings writer, completion checker, metrics calculator, runner and
      report generator.

    Modelling conventions.
    - A Python [str] is a Rocq [string], one [ascii] per character.
    - A value produced by [json.load] is a [json] tree; Python's dynamic
      typing is kept: subscripting, [in], [len] and iteration are partial
      and raise the exception Python raises.
    - The disk is a finite map from normalised paths to regular files.  A
      file is a JSON document, held as the value [json.load] decodes it to,
      or text that is not a JSON document, or bytes that are not text, or a
      JSON document nested too deeply to be decoded.  Directories are implicit:
      a directory exists when some file lies beneath it, and no directory
      stands at a name the program opens, copies or moves as a file.
      Writing is total (no permission or disk-space failure); reading a
      name that holds no file raises [FileNotFoundError].
    - Python's true division [/] on integers is the exact quotient in [Q];
      the rounding to a binary double is not modelled.
    - [print] has no effect on any modelled state and is left out. *)

From Stdlib Require Import ZArith QArith Lqa String Ascii List Lia.
From stdpp Require Import base option list gmap strings pretty sorting.

Set Warnings "-register-all".

Local Open Scope string_scope.
Local Open Scope list_scope.

(** ** Python values and exceptions *)

Module Py.

Inductive exn :=
| FileNotFoundError
| FileExistsError
| IsADirectoryError
| NotADirectoryError
| SameFileError
| JSONDecodeError
| UnicodeDecodeError
| RecursionError
| KeyError (key : string)
| TypeError.

Inductive result (A : Type) :=
| Ok (a : A)
| Raise (e : exn).
Arguments Ok {A} a.
Arguments Raise {A} e.

#[global] Instance result_ret : MRet result := fun A a => Ok a.
#[global] Instance result_bind : MBind result := fun A B f m =>
  match m with
  | Ok a => f a
  | Raise e => Raise e
  end.

Definition raises {A} (m : result A) : Prop := ∃ e, m = Raise e.

(** What [json.load] returns.  A [JObj] is a [dict] in insertion order,
    its keys distinct; lookup takes the first binding. *)
Inductive json :=
| JNull
| JBool (b : bool)
| JNum (q : Q)
| JStr (s : string)
| JArr (items : list json)
| JObj (fields : list (string * json)).

Fixpoint assoc {V} (k : string) (kv : list (string * V)) : option V :=
  match kv with
  | [] => None
  | (k', v) :: rest => if String.eqb k k' then Some v else assoc k rest
  end.

(** [x[key]] for a string key. *)
Definition getitem (x : json) (key : string) : result json :=
  match x with
  | JObj kv =>
      match assoc key kv with
      | Some v => Ok v
      | None => Raise (KeyError key)
      end
  | _ => Raise TypeError
  end.

(** [needle in hay] on strings: substring test. *)
Fixpoint substring_of (needle hay : string) : bool :=
  String.prefix needle hay ||
  match hay with
  | EmptyString => false
  | String _ rest => substring_of needle rest
  end.

(** [x == s] for a string literal [s]. *)
Definition eq_str (x : json) (s : string) : bool :=
  match x with
  | JStr t => String.eqb t s
  | _ => false
  end.

(** [needle in x]: substring on a [str], membership on a [list], key
    membership on a [dict], [TypeError] otherwise. *)
Definition contains (needle : string) (x : json) : result bool :=
  match x with
  | JStr s => Ok (substring_of needle s)
  | JArr l => Ok (existsb (fun y => eq_str y needle) l)
  | JObj kv => Ok (existsb (fun p => String.eqb (fst p) needle) kv)
  | _ => Raise TypeError
  end.

(** [len(x)]. *)
Definition len (x : json) : result Z :=
  match x with
  | JStr s => Ok (Z.of_nat (String.length s))
  | JArr l => Ok (Z.of_nat (List.length l))
  | JObj kv => Ok (Z.of_nat (List.length kv))
  | _ => Raise TypeError
  end.

Definition chars (s : string) : list json :=
  map (fun c => JStr (String c EmptyString)) (list_ascii_of_string s).

(** [for y in x]: the items of a [list], the characters of a [str], the
    keys of a [dict]. *)
Definition iter (x : json) : result (list json) :=
  match x with
  | JArr l => Ok l
  | JStr s => Ok (chars s)
  | JObj kv => Ok (map (fun p => JStr (fst p)) kv)
  | _ => Raise TypeError
  end.

(** [reversed(x)]. *)
Definition reversed (x : json) : result (list json) :=
  l ← iter x; Ok (rev l).

End Py.
Export Py.

(** ** The disk *)

Module Fs.

(** What a regular file holds, by what [json.load(open(name, 'r'))] does
    with it: [Json j] is a JSON document that decodes to [j]; [Text s] is
    text that is not a JSON document ([JSONDecodeError]); [Undecodable] is
    bytes that are not text in the default encoding
    ([UnicodeDecodeError]); [TooDeep] is a JSON document nested beyond the
    interpreter's recursion limit ([RecursionError]). *)
Inductive file :=
| Text (s : string)
| Json (j : json)
| Undecodable
| TooDeep.

Fixpoint split_path (s : string) : list string :=
  match s with
  | EmptyString => [EmptyString]
  | String c r =>
      if Ascii.eqb c "/" then EmptyString :: split_path r
      else match split_path r with
           | h :: t => String c h :: t
           | [] => [String c EmptyString]
           end
  end.

(** [os.path.normpath]: empty and [.] components are dropped, [..] removes
    the component before it. *)
Definition normpath (s : string) : list string :=
  let abs := String.prefix "/" s in
  let go (stack : list string) (c : string) :=
    if String.eqb c "" || String.eqb c "." then stack
    else if String.eqb c ".." then
      match stack with
      | [] => if abs then [] else [c]
      | top :: below => if String.eqb top ".." then c :: stack else below
      end
    else c :: stack in
  (if abs then ["/"] else []) ++ rev (fold_left go (split_path s) []).

Abbreviation path := (list string).
Abbreviation store := (gmap (list string) file).

(** [os.path.exists] on the name of a file. *)
Definition exists_ (fs : store) (name : string) : bool :=
  bool_decide (is_Some (fs !! normpath name)).

(** [os.path.exists] on the name of a directory: some file lies beneath
    it. *)
Definition dir_exists (fs : store) (name : string) : bool :=
  let d := normpath name in
  existsb (fun k => bool_decide (d `prefix_of` k) && negb (bool_decide (k = d)))
          (map fst (map_to_list fs)).

(** [open(name, 'r')] and reading the whole file. *)
Definition read (fs : store) (name : string) : result file :=
  match fs !! normpath name with
  | Some f => Ok f
  | None => Raise FileNotFoundError
  end.

(** [json.load(open(name, 'r'))]. *)
Definition load_json (fs : store) (name : string) : result json :=
  f ← read fs name;
  match f with
  | Json j => Ok j
  | Text _ => Raise JSONDecodeError
  | Undecodable => Raise UnicodeDecodeError
  | TooDeep => Raise RecursionError
  end.

(** [open(name, 'w')] and writing the whole content. *)
Definition write (name : string) (f : file) (fs : store) : store :=
  <[normpath name := f]> fs.

(** [shutil.copy(src, dst)]. *)
Definition copy (src dst : string) (fs : store) : result store :=
  if bool_decide (normpath src = normpath dst) then Raise SameFileError
  else f ← read fs src; Ok (<[normpath dst := f]> fs).

(** [shutil.move(src, dst)] onto a regular file or a free name. *)
Definition move (src dst : string) (fs : store) : result store :=
  f ← read fs src;
  Ok (if bool_decide (normpath src = normpath dst) then fs
      else <[normpath dst := f]> (delete (normpath src) fs)).

(** The directories above a path, nearest the working directory first. *)
Definition ancestors (p : path) : list path :=
  map (fun n => take n p) (seq 1 (List.length p - 1)).

(** [os.makedirs(name, exist_ok=True)]: refused when a regular file stands
    at one of the directories above [name] or at [name] itself; the
    directories it makes hold no file yet. *)
Definition makedirs (name : string) (fs : store) : result store :=
  let p := normpath name in
  if existsb (fun a => bool_decide (is_Some (fs !! a))) (ancestors p)
  then Raise NotADirectoryError
  else if bool_decide (is_Some (fs !! p)) then Raise FileExistsError
  else Ok fs.

(** [os.listdir(name)]: the names directly below [name]. *)
Definition listdir (fs : store) (name : string) : list string :=
  let d := normpath name in
  remove_dups
    (omap (fun k => if bool_decide (d `prefix_of` k)
                    then head (drop (List.length d) k) else None)
          (map fst (map_to_list fs))).

End Fs.
Export Fs.

(** ** Settings writer and restorer *)

Definition nl : string := String (ascii_of_nat 10) EmptyString.
Definition dquote : string := String (ascii_of_nat 34) EmptyString.
Definition backslash : string := String (ascii_of_nat 92) EmptyString.

Definition hex_digit (n : nat) : string :=
  match String.get n "0123456789abcdef" with
  | Some c => String c EmptyString
  | None => "0"
  end.

(** One character of a string under [json.dumps] (with its default
    [ensure_ascii=True]). *)
Definition escape_char (c : ascii) : string :=
  let n := nat_of_ascii c in
  if Nat.eqb n 34 then backslash +:+ dquote
  else if Nat.eqb n 92 then backslash +:+ backslash
  else if Nat.eqb n 10 then backslash +:+ "n"
  else if Nat.eqb n 13 then backslash +:+ "r"
  else if Nat.eqb n 9 then backslash +:+ "t"
  else if Nat.eqb n 8 then backslash +:+ "b"
  else if Nat.eqb n 12 then backslash +:+ "f"
  else if Nat.ltb n 32 || Nat.ltb 126 n
       then backslash +:+ "u00" +:+ hex_digit (n / 16) +:+ hex_digit (n mod 16)
  else String c EmptyString.

Definition dumps_str (s : string) : string :=
  dquote +:+ String.concat "" (map escape_char (list_ascii_of_string s)) +:+ dquote.

(** [json.dumps] of a list of strings. *)
Definition dumps_list (l : list string) : string :=
  "[" +:+ String.concat ", " (map dumps_str l) +:+ "]".

Definition settings_content (profiles : list string) : string :=
  nl +:+
  "    export default {" +:+ nl +:+
  "        profiles: " +:+ dumps_list profiles +:+ "," +:+ nl +:+
  "        allow_insecure_coding: true," +:+ nl +:+
  "        port: 55916," +:+ nl +:+
  "        num_examples: 3," +:+ nl +:+
  "        relevant_docs_count: 5," +:+ nl +:+
  "        code_timeout_mins: 5," +:+ nl +:+
  "        base_profile: " +:+ dquote +:+ "./profiles/defaults/_default.json" +:+ dquote +:+ nl +:+
  "    }" +:+ nl +:+
  "    ".

Definition settings_js : string := "settings.js".
Definition settings_bak : string := "settings.js.bak".
Definition settings_tmp : string := "settings.js.tmp".

Definition edit_settings (profiles : list string) (fs : store) : result store :=
  let fs := write settings_tmp (Text (settings_content profiles)) fs in
  fs ← (if exists_ fs settings_js then copy settings_js settings_bak fs
        else Ok fs);
  move settings_tmp settings_js fs.

Definition restore_settings (fs : store) : result store :=
  if exists_ fs settings_bak then move settings_bak settings_js fs
  else Ok fs.

(** ** Completion checker *)

Definition memory_path (agent_name : string) : string :=
  "bots/" +:+ agent_name +:+ "/memory.json".

(** The [try] ... [except (FileNotFoundError, json.JSONDecodeError)] of the
    two memory readers: these two exceptions end the block and control
    falls through to the code after it; any other exception propagates. *)
Definition except_missing_or_malformed {A} (body : result A) (after : A) : result A :=
  match body with
  | Raise FileNotFoundError => Ok after
  | Raise JSONDecodeError => Ok after
  | other => other
  end.

(** [turn['role'] == 'system' and marker in turn['content']]; [and] does
    not evaluate its right operand when the left one is false. *)
Definition system_turn_with (marker : string) (turn : json) : result bool :=
  role ← getitem turn "role";
  if eq_str role "system" then
    content ← getitem turn "content";
    contains marker content
  else Ok false.

(** The body of [for turn in reversed(memory['turns'])], on the turns in
    the order the loop visits them; [None] when the loop ends without a
    [return]. *)
Fixpoint completion_loop (turns : list json) : result (option bool) :=
  match turns with
  | [] => Ok None
  | turn :: rest =>
      hit ← system_turn_with "code" turn;
      if (hit : bool) then
        content ← getitem turn "content";
        two ← contains "code : 2" content;
        if (two : bool) then Ok (Some true)
        else
          content ← getitem turn "content";
          four ← contains "code : 4" content;
          if (four : bool) then Ok (Some false)
          else completion_loop rest
      else completion_loop rest
  end.

Definition check_task_completion (fs : store) (agent_name task_id : string)
  : result bool :=
  r ← except_missing_or_malformed
        (memory ← load_json fs (memory_path agent_name);
         turns ← getitem memory "turns";
         turns ← reversed turns;
         completion_loop turns)
        None;
  match r with
  | Some b => Ok b
  | None => Ok false
  end.

(** ** Metrics calculator *)

Record metrics := {
  task_completion : bool;
  time_taken : Q;
  code_generation_attempts : Z;
  code_execution_success_rate : Q;
  tokens_consumed : Q
}.

(** The first loop of [calculate_metrics], threading the two counters. *)
Fixpoint count_loop (turns : list json) (code_attempts code_successes : Z)
  : result (Z * Z) :=
  match turns with
  | [] => Ok (code_attempts, code_successes)
  | turn :: rest =>
      generated ← system_turn_with "Generated code:" turn;
      let code_attempts :=
        if (generated : bool) then (code_attempts + 1)%Z else code_attempts in
      succeeded ← system_turn_with "Code generation result: true" turn;
      let code_successes :=
        if (succeeded : bool) then (code_successes + 1)%Z else code_successes in
      count_loop rest code_attempts code_successes
  end.

(** [sum(len(turn['content']) for turn in turns)], from the start value
    [acc]. *)
Fixpoint sum_content_len (turns : list json) (acc : Z) : result Z :=
  match turns with
  | [] => Ok acc
  | turn :: rest =>
      content ← getitem turn "content";
      n ← len content;
      sum_content_len rest (acc + n)%Z
  end.

Definition calculate_metrics (fs : store) (agent_name : string)
    (time_taken : Q) (success : bool) : result metrics :=
  let metrics0 := {|
    task_completion := success;
    time_taken := time_taken;
    code_generation_attempts := 0;
    code_execution_success_rate := 0;
    tokens_consumed := 0 |} in
  except_missing_or_malformed
    (memory ← load_json fs (memory_path agent_name);
     turns ← getitem memory "turns";
     turns ← iter turns;
     '(code_attempts, code_successes) ← count_loop turns 0 0;
     let rate :=
       if (0 <? code_attempts)%Z
       then (inject_Z code_successes / inject_Z code_attempts)%Q
       else 0%Q in
     turns' ← getitem memory "turns";
     turns' ← iter turns';
     total_chars ← sum_content_len turns' 0;
     Ok {| task_completion := success;
           time_taken := time_taken;
           code_generation_attempts := code_attempts;
           code_execution_success_rate := rate;
           tokens_consumed := (inject_Z total_chars / 4)%Q |})
    metrics0.

(** ** Benchmark runner *)

(** A model descriptor and a task descriptor of the configuration:
    [model['name']], [model['profile']], [task['id']] and the optional
    [task['time_limit']] in seconds. *)
Record model := { model_name : string; model_profile : string }.
Record task := { task_id : string; task_time_limit : option Z }.

(** [task.get('time_limit', 900)]. *)
Definition time_limit (t : task) : Z := default 900%Z (task_time_limit t).

(** An f-string field holding a decoded JSON value.  Only strings are
    formatted here; a profile whose [name] is not a string is outside the
    model. *)
Inductive outside_model := NonStringName.

Definition setup_profile (m : model) (fs : store)
  : result (string * string * store) + outside_model :=
  let profile_path := model_profile m in
  if negb (exists_ fs profile_path) then inl (Raise FileNotFoundError)
  else
    match (profile_data ← load_json fs profile_path; getitem profile_data "name") with
    | Raise e => inl (Raise e)
    | Ok (JStr agent_name) =>
        let benchmark_profile_path := "./" +:+ agent_name +:+ ".json" in
        inl (fs ← copy profile_path benchmark_profile_path fs;
             Ok (agent_name, benchmark_profile_path, fs))
    | Ok _ => inr NonStringName
    end.

(** How [subprocess.run(cmd, check=True, ..., timeout=...)] ends: exit
    status 0 with the captured streams, [TimeoutExpired], or any other
    exception ([CalledProcessError] on a non-zero status included) with its
    [str(e)]. *)
Inductive run_outcome :=
| Exited (stdout stderr : string)
| TimeoutExpired
| Failed (description : string).

(** The disk and the external processes launched so far, each with its
    command line and timeout. *)
Record world := {
  disk : store;
  spawned : list (list string * Z)
}.

(** State passing with exceptions: the effects made before an exception
    stay. *)
Definition M (A : Type) : Type := world → world * result A.

#[global] Instance M_ret : MRet M := fun A a w => (w, Ok a).
#[global] Instance M_bind : MBind M := fun A B f m w =>
  match m w with
  | (w', Ok a) => f a w'
  | (w', Raise e) => (w', Raise e)
  end.

Definition on_disk (f : store → result store) : M unit := fun w =>
  match f (disk w) with
  | Ok fs => ({| disk := fs; spawned := spawned w |}, Ok tt)
  | Raise e => (w, Raise e)
  end.

Definition from_disk {A} (f : store → result A) : M A := fun w =>
  (w, f (disk w)).

Definition write_file (name : string) (f : file) : M unit :=
  on_disk (fun fs => Ok (write name f fs)).

(** [json.dump(metrics, f, indent=2)], as the document written. *)
Definition metrics_json (m : metrics) : json :=
  JObj [("task_completion", JBool (task_completion m));
        ("time_taken", JNum (time_taken m));
        ("code_generation_attempts", JNum (inject_Z (code_generation_attempts m)));
        ("code_execution_success_rate", JNum (code_execution_success_rate m));
        ("tokens_consumed", JNum (tokens_consumed m))].

Section Runner.

(** The environment of one trial: the clock, and the external agent
    process, which may rewrite the disk in any way before it ends. *)
Variable timestamp : string.
Variable start_time end_time : Q.
Variable subprocess_run : list string → Z → store → run_outcome * store.

Definition results_dir (m : model) (t : task) (run_number : Z) : string :=
  "benchmark_results/" +:+ timestamp +:+ "/" +:+ model_name m +:+ "/" +:+
  task_id t +:+ "/run_" +:+ pretty run_number.

Definition cmd (t : task) : list string :=
  ["node"; "main.js"; "--task_path"; "benchmark_tasks.json";
   "--task_id"; task_id t].

(** The [try] statement around [subprocess.run]. *)
Definition launch (results_dir : string) (t : task) : M unit := fun w =>
  let timeout := (time_limit t + 60)%Z in
  let '(outcome, fs) := subprocess_run (cmd t) timeout (disk w) in
  let w := {| disk := fs; spawned := spawned w ++ [(cmd t, timeout)] |} in
  match outcome with
  | Exited stdout stderr =>
      (_ ← write_file (results_dir +:+ "/stdout.log") (Text stdout);
       write_file (results_dir +:+ "/stderr.log") (Text stderr)) w
  | TimeoutExpired =>
      write_file (results_dir +:+ "/timeout.log") (Text "Task timed out") w
  | Failed description =>
      write_file (results_dir +:+ "/error.log") (Text ("Error: " +:+ description)) w
  end.

(** [for file in os.listdir(action_code_dir): shutil.copy(...)]; an entry
    that is not a regular file is a directory, which [shutil.copy]
    refuses. *)
Fixpoint copy_action_code (action_code_dir results_dir : string)
    (entries : list string) : M unit :=
  match entries with
  | [] => mret tt
  | file :: rest =>
      _ ← on_disk (fun fs =>
             if exists_ fs (action_code_dir +:+ "/" +:+ file)
             then copy (action_code_dir +:+ "/" +:+ file)
                       (results_dir +:+ "/action-code/" +:+ file) fs
             else Raise IsADirectoryError);
      copy_action_code action_code_dir results_dir rest
  end.

(** The loop over [os.listdir(action_code_dir)], the listing taken when
    the loop starts. *)
Definition copy_listed (action_code_dir results_dir : string) : M unit :=
  fun w =>
    copy_action_code action_code_dir results_dir
      (listdir (disk w) action_code_dir) w.

(** [if os.path.exists(action_code_dir): ...] with the loop over the
    directory listing. *)
Definition copy_action_code_dir (action_code_dir results_dir : string) : M unit :=
  fun w =>
    if dir_exists (disk w) action_code_dir
    then (_ ← on_disk (makedirs (results_dir +:+ "/action-code"));
          copy_listed action_code_dir results_dir) w
    else (w, Ok tt).

(** Copying the memory log and the action-code files into the results
    directory. *)
Definition collect (agent_name results_dir : string) : M unit :=
  let memory_path := "bots/" +:+ agent_name +:+ "/memory.json" in
  _ ← on_disk (fun fs =>
         if exists_ fs memory_path
         then copy memory_path (results_dir +:+ "/memory.json") fs
         else Ok fs);
  let action_code_dir := "bots/" +:+ agent_name +:+ "/action-code/" in
  copy_action_code_dir action_code_dir results_dir.

(** Everything after the [try] statement. *)
Definition finish (agent_name results_dir : string) (t : task) : M metrics :=
  let time_taken := (end_time - start_time)%Q in
  _ ← collect agent_name results_dir;
  success ← from_disk (fun fs => check_task_completion fs agent_name (task_id t));
  metrics ← from_disk (fun fs => calculate_metrics fs agent_name time_taken success);
  _ ← write_file (results_dir +:+ "/metrics.json") (Json (metrics_json metrics));
  mret metrics.

Definition run_benchmark (m : model) (t : task) (run_number : Z)
  : world → (world * result metrics) + outside_model := fun w =>
  match setup_profile m (disk w) with
  | inr o => inr o
  | inl (Raise e) => inl (w, Raise e)
  | inl (Ok (agent_name, profile_path, fs)) =>
      inl ((_ ← on_disk (fun _ => Ok fs);
            _ ← on_disk (edit_settings [profile_path]);
            let results_dir := results_dir m t run_number in
            _ ← on_disk (makedirs results_dir);
            _ ← launch results_dir t;
            finish agent_name results_dir t) w)
  end.

End Runner.

(** ** Report generator *)

(** The nested [results] dictionary, model name to task id to run number
    to metrics, each [dict] as the list of its items in insertion order. *)
Abbreviation runs_dict := (list (Z * metrics)).
Abbreviation tasks_dict := (list (string * list (Z * metrics))).
Abbreviation results_dict := (list (string * list (string * list (Z * metrics)))).

(** A row of the data frame [df]. *)
Record data_row := {
  Model : string;
  Task : string;
  Run : Z;
  Completed : bool;
  Time_s : Q;
  Code_Attempts : Z;
  Code_Success_Rate : Q;
  Tokens : Q
}.

(** A row of [summary], after [reset_index]. *)
Record summary_row := {
  sModel : string;
  sTask : string;
  sCompleted : Q;
  sTime_s : Q;
  sCode_Attempts : Q;
  sCode_Success_Rate : Q;
  sTokens : Q
}.

(** The three nested [for] loops appending to [data]. *)
Definition flatten_results (results : results_dict) : list data_row :=
  flat_map (fun '(model_name, model_results) =>
    flat_map (fun '(task_id, task_runs) =>
      map (fun '(run_num, metrics) =>
             {| Model := model_name;
                Task := task_id;
                Run := run_num;
                Completed := task_completion metrics;
                Time_s := time_taken metrics;
                Code_Attempts := code_generation_attempts metrics;
                Code_Success_Rate := code_execution_success_rate metrics;
                Tokens := tokens_consumed metrics |})
          (task_runs : runs_dict))
      (model_results : tasks_dict))
    results.

Definition group_key (r : data_row) : string * string := (Model r, Task r).

(** Lexicographic order on the group keys, strings compared character by
    character: the order in which [groupby] lists the groups. *)
Definition key_leb (a b : string * string) : bool :=
  match String.compare (fst a) (fst b) with
  | Lt => true
  | Eq => String.leb (snd a) (snd b)
  | Gt => false
  end.

Definition key_le (a b : string * string) : Prop := key_leb a b.

#[global] Instance key_le_dec : RelDecision key_le.
Proof. intros a b. unfold key_le. apply _. Defined.

Definition Qsum (l : list Q) : Q := fold_right Qplus 0%Q l.

(** The mean of a numeric column over the [n] rows of a group. *)
Definition mean (l : list Q) : Q :=
  (Qsum l / inject_Z (Z.of_nat (List.length l)))%Q.

Definition Q_of_bool (b : bool) : Q := if b then 1%Q else 0%Q.

(** [df.groupby(["Model", "Task"]).agg({... "mean"}).reset_index()] on a
    frame that has these columns. *)
Definition summarise (data : list data_row) : list summary_row :=
  map (fun k =>
         let group := filter (fun r => group_key r = k) data in
         {| sModel := fst k;
            sTask := snd k;
            sCompleted := mean (map (fun r => Q_of_bool (Completed r)) group);
            sTime_s := mean (map Time_s group);
            sCode_Attempts := mean (map (fun r => inject_Z (Code_Attempts r)) group);
            sCode_Success_Rate := mean (map Code_Success_Rate group);
            sTokens := mean (map Tokens group) |})
      (merge_sort key_le (remove_dups (map group_key data))).

(** The two CSV files under [output_dir], each as the table written to it;
    [None] while not written. *)
Record report := {
  benchmark_data_csv : option (list data_row);
  benchmark_summary_csv : option (list summary_row)
}.

(** [generate_report] up to the second [to_csv]; the plotting that follows
    writes neither file.  A frame built from an empty list has no columns,
    so grouping it by ["Model"] raises [KeyError]. *)
Definition generate_report (results : results_dict) : report * result unit :=
  let data := flatten_results results in
  let written := {| benchmark_data_csv := Some data;
                    benchmark_summary_csv := None |} in
  match data with
  | [] => (written, Raise (KeyError "Model"))
  | _ :: _ =>
      ({| benchmark_data_csv := Some data;
          benchmark_summary_csv := Some (summarise data) |}, Ok tt)
  end.

(** ** The memory log as the specification describes it *)

(** A turn has a role and free-text content; a memory log is an ordered
    sequence of turns. *)
Record turn := { role : string; content : string }.

(** The turn a decoded JSON object stands for, when it has string [role]
    and [content] fields. *)
Definition turn_of (j : json) : option turn :=
  match getitem j "role", getitem j "content" with
  | Ok (JStr r), Ok (JStr c) => Some {| role := r; content := c |}
  | _, _ => None
  end.

(** The log a decoded document stands for, when its [turns] field is a
    list of such objects. *)
Definition log_of (j : json) : option (list turn) :=
  match getitem j "turns" with
  | Ok (JArr items) => mapM turn_of items
  | _ => None
  end.

(** What the memory file of an agent holds: nothing, text that is not JSON,
    or a log.  A JSON document that is not a log, bytes that are not text
    and a document nested too deeply have no such description. *)
Inductive memory_state :=
| Absent
| Malformed
| Log (turns : list turn).

Definition memory_state_of (fs : store) (agent_name : string)
  : option memory_state :=
  match fs !! normpath (memory_path agent_name) with
  | None => Some Absent
  | Some (Text _) => Some Malformed
  | Some (Json j) => Log <$> log_of j
  | Some Undecodable => None
  | Some TooDeep => None
  end.

Definition has (marker : string) (t : turn) : Prop :=
  substring_of marker (content t).

Definition system_authored (t : turn) : Prop := role t = "system".




(** The counts of the metrics calculator, in the specification's words:
    system-role turns whose content contains the marker. *)
Definition system_turns_with (marker : string) (log : list turn) : list turn :=
  filter (fun t => system_authored t ∧ has marker t) log.

Definition attempts (log : list turn) : Z :=
  Z.of_nat (List.length (system_turns_with "Generated code:" log)).

Definition successes (log : list turn) : Z :=
  Z.of_nat (List.length (system_turns_with "Code generation result: true" log)).

(** The total character count across all turn contents. *)
Definition total_characters (log : list turn) : Z :=
  Z.of_nat (sum_list (map (fun t => String.length (content t)) log)).

(** The three settings names are the only ones the writer and the restorer
    act on. *)
Definition settings_names : list path :=
  [normpath settings_js; normpath settings_bak; normpath settings_tmp].

(** ** The results dictionary as the specification describes it *)

Definition dict_keys_distinct {K V} (d : list (K * V)) : Prop :=
  NoDup (map fst d).

(** Every level of [results] is a [dict]: no key occurs twice. *)
Definition well_formed_results (results : results_dict) : Prop :=
  dict_keys_distinct results ∧
  Forall (fun mr : string * tasks_dict =>
            dict_keys_distinct (snd mr) ∧
            Forall (fun tr : string * runs_dict => dict_keys_distinct (snd tr))
                   (snd mr))
         results.

(** The (model, task, run) triple is present in the mapping. *)
Definition triple_present (results : results_dict) (m t : string) (r : Z) : Prop :=
  ∃ (mr : tasks_dict) (tr : runs_dict) (x : metrics),
    (m, mr) ∈ results ∧ (t, tr) ∈ mr ∧ (r, x) ∈ tr.

(** The (model, task) pair has at least one run. *)
Definition pair_present (results : results_dict) (m t : string) : Prop :=
  ∃ r, triple_present results m t r.

Definition row_key (r : data_row) : string * string * Z :=
  (Model r, Task r, Run r).

Definition summary_key (r : summary_row) : string * string :=
  (sModel r, sTask r).

(** ** Sample disks, logs and runs, and auxiliary functions *)

Definition disk_with_settings : store :=
  {[ normpath settings_js := Text "export default { profiles: [] }" ]}.

(** A disk without a settings file, holding a backup left by an earlier run
    and a leftover staging file. *)
Definition disk_with_leftovers : store :=
  <[normpath settings_bak := Text "stale backup"]>
    {[ normpath settings_tmp := Text "scratch" ]}.

Definition is_system (t : turn) : bool := String.eqb (role t) "system".


Definition turn_json (r c : string) : json :=
  JObj [("role", JStr r); ("content", JStr c)].

Definition memory_disk (agent_name : string) (turns : list json) : store :=
  {[ normpath (memory_path agent_name) := Json (JObj [("turns", JArr turns)]) ]}.

Definition two_attempts_one_success : list json :=
  [turn_json "system" "Generated code: await skills.collectBlock(bot, 'oak_log')";
   turn_json "system" "Code generation result: false";
   turn_json "system" "Generated code: await skills.craftRecipe(bot, 'stick')";
   turn_json "system" "Code generation result: true";
   turn_json "assistant" "Generated code: done"].

Definition one_attempt_two_successes : list json :=
  [turn_json "system" "Generated code: await skills.collectBlock(bot, 'oak_log')";
   turn_json "system" "Code generation result: true";
   turn_json "system" "Code generation result: true"].


Definition gpt : model :=
  {| model_name := "gpt"; model_profile := "profiles/gpt.json" |}.

Definition collect_wood : task :=
  {| task_id := "collect_wood"; task_time_limit := None |}.

(** An agent process that runs out of time and leaves the disk as it is. *)
Definition times_out : list string → Z → store → run_outcome * store :=
  fun _ _ fs => (TimeoutExpired, fs).

(** A disk with the profile of agent [andy] and, as its memory file, the
    given file. *)
Definition staged_disk (memory : file) : store :=
  <[normpath "profiles/gpt.json" := Json (JObj [("name", JStr "andy")])]>
    {[ normpath (memory_path "andy") := memory ]}.

Definition finished (b : bool) : metrics :=
  {| task_completion := b;
     time_taken := 120;
     code_generation_attempts := 3;
     code_execution_success_rate := 0.5;
     tokens_consumed := 2000 |}.

Definition one_model_two_runs : results_dict :=
  [("gpt", [("collect_wood", [(1%Z, finished true); (2%Z, finished false)])])].

(** A turn object that is not authored by the system and has no
    [content] field. *)
Definition lacks_content (j : json) : Prop :=
  ∃ r : json,
    getitem j "role" = Ok r ∧ eq_str r "system" = false ∧
    getitem j "content" = Raise (KeyError "content").

(** A turn object with string [role] and [content] fields. *)
Definition well_formed_turn (j : json) : Prop := is_Some (turn_of j).


(** A disk with two generated code files of agent [andy]. *)
Definition action_code_disk : store :=
  <[normpath "bots/andy/action-code/0.js" := Text "await skills.goToPlayer(bot);"]>
    {[ normpath "bots/andy/action-code/1.js" := Text "await skills.stay(bot);" ]}.

(** The row that the flattening loop appends for one run. *)
Definition run_row (model_name task_id : string) (run : Z * metrics) : data_row :=
  {| Model := model_name;
     Task := task_id;
     Run := fst run;
     Completed := task_completion (snd run);
     Time_s := time_taken (snd run);
     Code_Attempts := code_generation_attempts (snd run);
     Code_Success_Rate := code_execution_success_rate (snd run);
     Tokens := tokens_consumed (snd run) |}.

(** The summary row of a (model, task) pair, computed from its runs: the
    mean of each metric over the runs. *)
Definition mean_row (model_name task_id : string) (runs : runs_dict) : summary_row :=
  {| sModel := model_name;
     sTask := task_id;
     sCompleted := mean (map (fun run => Q_of_bool (task_completion (snd run))) runs);
     sTime_s := mean (map (fun run => time_taken (snd run)) runs);
     sCode_Attempts :=
       mean (map (fun run => inject_Z (code_generation_attempts (snd run))) runs);
     sCode_Success_Rate :=
       mean (map (fun run => code_execution_success_rate (snd run)) runs);
     sTokens := mean (map (fun run => tokens_consumed (snd run)) runs) |}.

(** Every character of a string passes a test. *)
Fixpoint all_chars (test : ascii → bool) (s : string) : bool :=
  match s with
  | EmptyString => true
  | String c rest => test c && all_chars test rest
  end.

(** The printable ASCII characters, from the space to the tilde. *)
Definition printable (c : ascii) : bool :=
  Nat.leb 32 (nat_of_ascii c) && Nat.leb (nat_of_ascii c) 126.

Definition printable_or_newline (c : ascii) : bool :=
  printable c || Nat.eqb (nat_of_ascii c) 10.

(** A disk whose memory file of agent [agent_name] holds the JSON document
    [memory]. *)
Definition memory_document_disk (agent_name : string) (memory : json) : store :=
  {[ normpath (memory_path agent_name) := Json memory ]}.

(** A decoded JSON value that is not a JSON object. *)
Definition not_an_object (x : json) : Prop :=
  match x with JObj _ => False | _ => True end.

(** [null], a boolean or a number. *)
Definition scalar (x : json) : Prop :=
  match x with JNull | JBool _ | JNum _ => True | _ => False end.

(** An empty list, an empty string or an empty object. *)
Definition empty_collection (x : json) : Prop :=
  x = JArr [] ∨ x = JStr "" ∨ x = JObj [].

(** A non-empty string or a non-empty object. *)
Definition text_or_object (x : json) : Prop :=
  match x with
  | JStr (String _ _) => True
  | JObj (_ :: _) => True
  | _ => False
  end.



(** * Properties *)

(** ** Settings writer and restorer *)

Lemma normpath_settings_js : normpath settings_js = ["settings.js"].
Proof. reflexivity. Qed.

Lemma normpath_settings_bak : normpath settings_bak = ["settings.js.bak"].
Proof. reflexivity. Qed.

Lemma normpath_settings_tmp : normpath settings_tmp = ["settings.js.tmp"].
Proof. reflexivity. Qed.

Lemma exists_true (fs : store) (name : string) (f : file) :
  fs !! normpath name = Some f → exists_ fs name = true.
Proof. intros H. unfold exists_. apply bool_decide_eq_true. eauto. Qed.

Lemma exists_false (fs : store) (name : string) :
  fs !! normpath name = None → exists_ fs name = false.
Proof.
  intros H. unfold exists_. apply bool_decide_eq_false.
  rewrite H. intros [? ?]; discriminate.
Qed.

Lemma read_some (fs : store) (name : string) (f : file) :
  fs !! normpath name = Some f → read fs name = Ok f.
Proof. intros H. unfold read. by rewrite H. Qed.

Ltac settings_paths :=
  rewrite ?normpath_settings_js, ?normpath_settings_bak, ?normpath_settings_tmp in *.

(** After the writer, on a disk that had a settings file [c]: the new
    settings are in place, [c] is the backup and the staging file is gone. *)
Lemma edit_settings_existing (profiles : list string) (fs : store) (c : file) :
  fs !! normpath settings_js = Some c →
  edit_settings profiles fs =
    Ok (<[normpath settings_js := Text (settings_content profiles)]>
          (delete (normpath settings_tmp)
             (<[normpath settings_bak := c]>
                (<[normpath settings_tmp := Text (settings_content profiles)]> fs)))).
Proof.
  intros Hc. unfold edit_settings, write.
  rewrite (exists_true _ _ c); last by (settings_paths; simplify_map_eq).
  unfold copy. rewrite bool_decide_eq_false_2 by (settings_paths; congruence).
  rewrite (read_some _ _ c); last by (settings_paths; simplify_map_eq).
  cbn. unfold move.
  erewrite read_some; last by (settings_paths; simplify_map_eq).
  cbn. rewrite bool_decide_eq_false_2 by (settings_paths; congruence).
  reflexivity.
Qed.

(** After the writer, on a disk without a settings file: no backup is
    made. *)
Lemma edit_settings_fresh (profiles : list string) (fs : store) :
  fs !! normpath settings_js = None →
  edit_settings profiles fs =
    Ok (<[normpath settings_js := Text (settings_content profiles)]>
          (delete (normpath settings_tmp)
             (<[normpath settings_tmp := Text (settings_content profiles)]> fs))).
Proof.
  intros Hc. unfold edit_settings, write.
  rewrite exists_false; last by (settings_paths; simplify_map_eq).
  cbn. unfold move.
  erewrite read_some; last by (settings_paths; simplify_map_eq).
  cbn. rewrite bool_decide_eq_false_2 by (settings_paths; congruence).
  reflexivity.
Qed.

Lemma restore_settings_backup (fs : store) (c : file) :
  fs !! normpath settings_bak = Some c →
  restore_settings fs =
    Ok (<[normpath settings_js := c]> (delete (normpath settings_bak) fs)).
Proof.
  intros Hc. unfold restore_settings.
  rewrite (exists_true _ _ c) by done.
  unfold move. rewrite (read_some _ _ c) by done. cbn.
  rewrite bool_decide_eq_false_2 by (settings_paths; congruence).
  reflexivity.
Qed.

Lemma restore_settings_no_backup (fs : store) :
  fs !! normpath settings_bak = None → restore_settings fs = Ok fs.
Proof. intros Hc. unfold restore_settings. by rewrite exists_false. Qed.

(** C4. Settings round trip: when a settings file with content [c] exists,
    [edit_settings] followed by [restore_settings] both succeed and leave
    the settings file with exactly the content [c]; no backup is left, and
    a second [restore_settings] changes nothing. *)
Theorem edit_then_restore_roundtrip (profiles : list string) (fs : store) (c : file) :
  fs !! normpath settings_js = Some c →
  ∃ fs1 fs2 : store,
    edit_settings profiles fs = Ok fs1 ∧
    restore_settings fs1 = Ok fs2 ∧
    fs2 !! normpath settings_js = Some c ∧
    fs2 !! normpath settings_bak = None ∧
    restore_settings fs2 = Ok fs2.
Proof.
  intros Hc. eexists _, _.
  split; [by apply edit_settings_existing|].
  split; [apply (restore_settings_backup _ c); settings_paths; by simplify_map_eq|].
  assert (Hbak : ∀ m : store,
    (<[normpath settings_js := c]> (delete (normpath settings_bak) m))
      !! normpath settings_bak = None)
    by (intros m; settings_paths; by simplify_map_eq).
  split; [settings_paths; by simplify_map_eq|].
  split; [apply Hbak|].
  apply restore_settings_no_backup, Hbak.
Qed.

Lemma edit_then_restore_roundtrip_witness :
  ∃ fs1 fs2 : store,
    edit_settings ["./andy.json"] disk_with_settings = Ok fs1 ∧
    restore_settings fs1 = Ok fs2 ∧
    fs2 !! normpath settings_js = Some (Text "export default { profiles: [] }") ∧
    fs2 !! normpath settings_bak = None ∧
    restore_settings fs2 = Ok fs2.
Proof.
  apply (edit_then_restore_roundtrip ["./andy.json"] disk_with_settings).
  reflexivity.
Defined.

(** The writer leaves every name other than the three settings names as it
    was, whatever the disk holds. *)
Lemma edit_settings_frame (profiles : list string) (fs fs' : store) (p : path) :
  edit_settings profiles fs = Ok fs' →
  p ∉ settings_names →
  fs' !! p = fs !! p.
Proof.
  intros Hedit Hp.
  assert (p ≠ normpath settings_js ∧ p ≠ normpath settings_bak ∧
          p ≠ normpath settings_tmp) as (Hjs & Hbak & Htmp).
  { unfold settings_names in Hp. set_solver. }
  destruct (fs !! normpath settings_js) as [c|] eqn:Hc.
  - rewrite (edit_settings_existing _ _ c Hc) in Hedit.
    injection Hedit as <-. by simplify_map_eq.
  - rewrite (edit_settings_fresh _ _ Hc) in Hedit.
    injection Hedit as <-. by simplify_map_eq.
Qed.

(** So does the restorer. *)
Lemma restore_settings_frame (fs fs' : store) (p : path) :
  restore_settings fs = Ok fs' →
  p ∉ settings_names →
  fs' !! p = fs !! p.
Proof.
  intros Hres Hp.
  assert (p ≠ normpath settings_js ∧ p ≠ normpath settings_bak) as (Hjs & Hbak).
  { unfold settings_names in Hp. set_solver. }
  destruct (fs !! normpath settings_bak) as [c|] eqn:Hc.
  - rewrite (restore_settings_backup _ c Hc) in Hres.
    injection Hres as <-. by simplify_map_eq.
  - rewrite (restore_settings_no_backup _ Hc) in Hres. congruence.
Qed.

(** C10, as stated, fails on [disk_with_leftovers]: there is no settings
    file, yet the restore after the write is not a no-op (it puts the stale
    backup over the newly written settings), and the staging file, which is
    neither the settings file nor its backup, is consumed. *)
Lemma restore_after_fresh_write_counterexample :
  disk_with_leftovers !! normpath settings_js = None ∧
  ∃ fs1 fs2 : store,
    edit_settings ["./andy.json"] disk_with_leftovers = Ok fs1 ∧
    restore_settings fs1 = Ok fs2 ∧
    fs1 !! normpath settings_js = Some (Text (settings_content ["./andy.json"])) ∧
    fs2 !! normpath settings_js = Some (Text "stale backup") ∧
    disk_with_leftovers !! normpath settings_tmp = Some (Text "scratch") ∧
    fs1 !! normpath settings_tmp = None.
Proof.
  split; [reflexivity|].
  eexists _, _. repeat split; vm_compute; reflexivity.
Qed.

(** C10, amended. When neither a settings file nor a backup exists, the
    writer succeeds, makes no backup and puts the new settings in place;
    the restore that follows is a no-op, so the settings file stays and the
    disk is not back in its state before the write; the staging file is
    gone, and every name other than the settings file, its backup and the
    staging file is as it was. *)
Theorem fresh_write_then_restore (profiles : list string) (fs : store) :
  fs !! normpath settings_js = None →
  fs !! normpath settings_bak = None →
  ∃ fs1 : store,
    edit_settings profiles fs = Ok fs1 ∧
    fs1 !! normpath settings_bak = None ∧
    fs1 !! normpath settings_js = Some (Text (settings_content profiles)) ∧
    restore_settings fs1 = Ok fs1 ∧
    fs1 !! normpath settings_js ≠ fs !! normpath settings_js ∧
    fs1 !! normpath settings_tmp = None ∧
    ∀ p : path, p ∉ settings_names → fs1 !! p = fs !! p.
Proof.
  intros Hjs Hbak. eexists. split; [by apply edit_settings_fresh|].
  match goal with |- ?m !! _ = None ∧ _ => set (fs1 := m) end.
  assert (H1 : fs1 !! normpath settings_bak = None).
  { subst fs1. settings_paths. by simplify_map_eq. }
  assert (H2 : fs1 !! normpath settings_js = Some (Text (settings_content profiles))).
  { subst fs1. settings_paths. by simplify_map_eq. }
  repeat split; try done.
  - by apply restore_settings_no_backup.
  - rewrite H2, Hjs. discriminate.
  - subst fs1. settings_paths. by simplify_map_eq.
  - intros p Hp. apply (edit_settings_frame profiles); [|done].
    by apply edit_settings_fresh.
Qed.

Lemma fresh_write_then_restore_witness :
  ∃ fs1 : store,
    edit_settings ["./andy.json"] ∅ = Ok fs1 ∧
    fs1 !! normpath settings_bak = None ∧
    fs1 !! normpath settings_js = Some (Text (settings_content ["./andy.json"])) ∧
    restore_settings fs1 = Ok fs1 ∧
    fs1 !! normpath settings_js ≠ (∅ : store) !! normpath settings_js ∧
    fs1 !! normpath settings_tmp = None ∧
    ∀ p : path, p ∉ settings_names → fs1 !! p = (∅ : store) !! p.
Proof.
  apply (fresh_write_then_restore ["./andy.json"] ∅); reflexivity.
Defined.

(** ** Reading a well-formed memory log *)

Lemma prefix_trans (p n h : string) :
  String.prefix p n = true → String.prefix n h = true → String.prefix p h = true.
Proof.
  revert n h. induction p as [|a p IH]; intros n h Hpn Hnh; [by destruct h|].
  destruct n as [|b n]; [discriminate|].
  destruct h as [|c h]; [discriminate|].
  cbn in *.
  destruct (ascii_dec a b) as [->|]; [|discriminate].
  destruct (ascii_dec b c) as [->|]; [|discriminate].
  eauto.
Qed.

(** A string that contains a marker contains every prefix of the marker. *)
Lemma substring_of_prefix (p n s : string) :
  String.prefix p n = true → substring_of n s = true → substring_of p s = true.
Proof.
  intros Hpn. induction s as [|c s IH]; intros H.
  - change (String.prefix n "" || false = true) in H.
    change (String.prefix p "" || false = true).
    apply orb_true_iff in H as [H|H]; [|discriminate].
    by rewrite (prefix_trans _ _ _ Hpn H).
  - change (String.prefix n (String c s) || substring_of n s = true) in H.
    change (String.prefix p (String c s) || substring_of p s = true).
    apply orb_true_iff in H as [H|H].
    + by rewrite (prefix_trans _ _ _ Hpn H).
    + rewrite (IH H). apply orb_true_r.
Qed.

Lemma turn_of_fields (j : json) (t : turn) :
  turn_of j = Some t →
  getitem j "role" = Ok (JStr (role t)) ∧
  getitem j "content" = Ok (JStr (content t)).
Proof.
  unfold turn_of. intros H.
  destruct (getitem j "role") as [[]|]; try discriminate.
  destruct (getitem j "content") as [[]|]; try discriminate.
  by injection H as <-.
Qed.

Lemma is_system_spec (t : turn) : is_system t = true ↔ system_authored t.
Proof. apply String.eqb_eq. Qed.

Lemma system_turn_with_turn (marker : string) (j : json) (t : turn) :
  turn_of j = Some t →
  system_turn_with marker j = Ok (is_system t && substring_of marker (content t)).
Proof.
  intros [Hr Hc]%turn_of_fields. unfold system_turn_with.
  rewrite Hr. cbn. fold (is_system t).
  destruct (is_system t); [|done]. by rewrite Hc.
Qed.


Lemma prefix_iff (n h : string) :
  String.prefix n h = true ↔ ∃ b, h = n +:+ b.
Proof.
  revert h. induction n as [|c n IH]; intros h.
  - split; [by exists h|]. intros _. by destruct h.
  - destruct h as [|d h]; cbn.
    + split; [discriminate|]. by intros [b Hb].
    + destruct (ascii_dec c d) as [->|Hne].
      * rewrite IH. split; intros [b Hb]; exists b;
          [by rewrite Hb|by injection Hb].
      * split; [discriminate|]. intros [b [= ? ?]]. done.
Qed.




Lemma memory_state_log (fs : store) (agent_name : string) (log : list turn) :
  memory_state_of fs agent_name = Some (Log log) →
  ∃ memory items,
    load_json fs (memory_path agent_name) = Ok memory ∧
    getitem memory "turns" = Ok (JArr items) ∧
    Forall2 (fun j t => turn_of j = Some t) items log.
Proof.
  unfold memory_state_of, load_json, read.
  destruct (fs !! normpath (memory_path agent_name)) as [[s|j| |]|]; try discriminate.
  cbn. unfold log_of. intros H.
  destruct (getitem j "turns") as [[]|] eqn:Hturns; try discriminate.
  cbn in H. destruct (mapM turn_of items) as [ts|] eqn:Hts; simplify_eq/=.
  apply mapM_Some in Hts. eauto.
Qed.





(** ** Completion checker *)




(** C6. The completion checker does not consult the task id: on two disks
    that hold the same thing at the memory path derived from the agent
    name, it gives the same result for any two task ids. *)
Theorem check_task_completion_task_independent (fs1 fs2 : store)
    (agent_name task_id1 task_id2 : string) :
  fs1 !! normpath (memory_path agent_name) = fs2 !! normpath (memory_path agent_name) →
  check_task_completion fs1 agent_name task_id1 =
  check_task_completion fs2 agent_name task_id2.
Proof.
  intros H. unfold check_task_completion, load_json, read. by rewrite H.
Qed.

Lemma check_task_completion_task_independent_witness :
  memory_disk "andy" [turn_json "system" "code : 2"] !! normpath (memory_path "andy")
  = <[normpath settings_js := Text "x"]>
      (memory_disk "andy" [turn_json "system" "code : 2"]) !! normpath (memory_path "andy") ∧
  check_task_completion (memory_disk "andy" [turn_json "system" "code : 2"])
    "andy" "collect_wood" =
  check_task_completion
    (<[normpath settings_js := Text "x"]>
       (memory_disk "andy" [turn_json "system" "code : 2"]))
    "andy" "build_house".
Proof.
  split; [reflexivity|].
  apply check_task_completion_task_independent. reflexivity.
Defined.

(** ** Metrics calculator *)

Lemma system_turns_with_cons (marker : string) (t : turn) (log : list turn) :
  Z.of_nat (List.length (system_turns_with marker (t :: log))) =
  ((if is_system t && substring_of marker (content t) then 1 else 0) +
   Z.of_nat (List.length (system_turns_with marker log)))%Z.
Proof.
  unfold system_turns_with. rewrite filter_cons.
  destruct (is_system t && substring_of marker (content t)) eqn:Hb.
  - apply andb_true_iff in Hb as [Hs%is_system_spec Hm%Is_true_true].
    rewrite decide_True by done. cbn [List.length]. lia.
  - rewrite decide_False; [lia|]. intros [Hs%is_system_spec Hm%Is_true_true].
    unfold has in Hm. by rewrite Hs, Hm in Hb.
Qed.

Lemma count_loop_turns (items : list json) (log : list turn) (a s : Z) :
  Forall2 (fun j t => turn_of j = Some t) items log →
  count_loop items a s = Ok ((a + attempts log)%Z, (s + successes log)%Z).
Proof.
  intros H. revert a s.
  induction H as [|j t items log Hj _ IH]; intros a s.
  - cbn. do 2 f_equal; unfold attempts, successes; cbn; lia.
  - cbn [count_loop]. rewrite !(system_turn_with_turn _ _ _ Hj). cbn.
    rewrite IH. unfold attempts, successes.
    rewrite !system_turns_with_cons.
    do 2 f_equal;
      [destruct (is_system t && substring_of "Generated code:" (content t))
      |destruct (is_system t && substring_of "Code generation result: true" (content t))];
      cbv iota; lia.
Qed.

Lemma sum_content_len_turns (items : list json) (log : list turn) (acc : Z) :
  Forall2 (fun j t => turn_of j = Some t) items log →
  sum_content_len items acc = Ok (acc + total_characters log)%Z.
Proof.
  intros H. revert acc.
  induction H as [|j t items log Hj _ IH]; intros acc.
  - cbn. f_equal. unfold total_characters. cbn. lia.
  - cbn [sum_content_len]. destruct (turn_of_fields _ _ Hj) as [_ ->].
    cbn. rewrite IH. f_equal. unfold total_characters. cbn. lia.
Qed.

(** The metrics computed from a well-formed log. *)
Lemma calculate_metrics_log (fs : store) (agent_name : string) (elapsed : Q)
    (success : bool) (log : list turn) :
  memory_state_of fs agent_name = Some (Log log) →
  calculate_metrics fs agent_name elapsed success =
    Ok {| task_completion := success;
          time_taken := elapsed;
          code_generation_attempts := attempts log;
          code_execution_success_rate :=
            if (0 <? attempts log)%Z
            then (inject_Z (successes log) / inject_Z (attempts log))%Q
            else 0%Q;
          tokens_consumed := (inject_Z (total_characters log) / 4)%Q |}.
Proof.
  intros (memory & items & Hload & Hturns & Hitems)%memory_state_log.
  unfold calculate_metrics. rewrite Hload. cbn. rewrite Hturns. cbn.
  rewrite (count_loop_turns _ log) by done. cbn.
  by rewrite (sum_content_len_turns _ log).
Qed.

(** C5. On a memory log, [calculate_metrics] sets the success rate to the
    number of system-role turns containing 'Code generation result: true'
    divided by the number of system-role turns containing 'Generated
    code:' when the latter is positive, and to 0 when it is zero. *)
Theorem success_rate_is_quotient (fs : store) (agent_name : string)
    (elapsed : Q) (success : bool) (log : list turn) :
  memory_state_of fs agent_name = Some (Log log) →
  ∃ m : metrics,
    calculate_metrics fs agent_name elapsed success = Ok m ∧
    code_generation_attempts m = attempts log ∧
    ((0 < attempts log)%Z →
     code_execution_success_rate m =
       (inject_Z (successes log) / inject_Z (attempts log))%Q) ∧
    (attempts log = 0%Z → code_execution_success_rate m = 0%Q).
Proof.
  intros Hlog. eexists. split; [by apply calculate_metrics_log|].
  cbn. split; [done|]. split.
  - intros Hpos. by rewrite (proj2 (Z.ltb_lt _ _) Hpos).
  - by intros ->.
Qed.

Lemma success_rate_is_quotient_witness :
  ∃ m : metrics,
    calculate_metrics (memory_disk "andy" two_attempts_one_success) "andy" 12 true
      = Ok m ∧
    code_generation_attempts m = 2%Z ∧
    code_execution_success_rate m = (inject_Z 1 / inject_Z 2)%Q.
Proof.
  destruct (success_rate_is_quotient
              (memory_disk "andy" two_attempts_one_success) "andy" 12 true _
              eq_refl) as (m & Hm & Ha & Hr & _).
  exists m. split; [exact Hm|]. split; [exact Ha|].
  apply Hr. reflexivity.
Defined.

(** C7. On a readable memory log, [calculate_metrics] sets
    [tokens_consumed] to the total character count across all turn
    contents divided by 4. *)
Theorem tokens_is_characters_over_four (fs : store) (agent_name : string)
    (elapsed : Q) (success : bool) (log : list turn) :
  memory_state_of fs agent_name = Some (Log log) →
  ∃ m : metrics,
    calculate_metrics fs agent_name elapsed success = Ok m ∧
    tokens_consumed m = (inject_Z (total_characters log) / 4)%Q.
Proof.
  intros Hlog. eexists. split; [by apply calculate_metrics_log|done].
Qed.

Lemma tokens_is_characters_over_four_witness :
  ∃ m : metrics,
    calculate_metrics
      (memory_disk "andy" [turn_json "user" "hello"; turn_json "system" "hi!"])
      "andy" 12 false = Ok m ∧
    tokens_consumed m = (inject_Z 8 / 4)%Q.
Proof.
  apply (tokens_is_characters_over_four
           (memory_disk "andy" [turn_json "user" "hello"; turn_json "system" "hi!"])
           "andy" 12 false
           [{| role := "user"; content := "hello" |};
            {| role := "system"; content := "hi!" |}]).
  reflexivity.
Defined.

Lemma inject_Z_quotient_above_one (a s : Z) :
  (0 < a < s)%Z → (1 < inject_Z s / inject_Z a)%Q.
Proof.
  intros [Ha Has]. apply Qlt_shift_div_l.
  - change 0%Q with (inject_Z 0). by rewrite <- Zlt_Qlt.
  - rewrite Qmult_1_l. by rewrite <- Zlt_Qlt.
Qed.

(** C9. The success rate can exceed 1.  The success marker is counted
    independently of the attempt marker: a log with one attempt-marker
    turn and two success-marker turns has rate 2, and every log with at
    least one attempt-marker turn and more success-marker turns than
    attempt-marker turns has a rate above 1. *)
Theorem success_rate_can_exceed_one :
  (∃ m : metrics,
     calculate_metrics (memory_disk "andy" one_attempt_two_successes) "andy" 30 true
       = Ok m ∧
     (1 < code_execution_success_rate m)%Q) ∧
  ∀ (fs : store) (agent_name : string) (elapsed : Q) (success : bool)
    (log : list turn),
    memory_state_of fs agent_name = Some (Log log) →
    (0 < attempts log < successes log)%Z →
    ∃ m : metrics,
      calculate_metrics fs agent_name elapsed success = Ok m ∧
      (1 < code_execution_success_rate m)%Q.
Proof.
  assert (Hgen : ∀ (fs : store) (agent_name : string) (elapsed : Q)
            (success : bool) (log : list turn),
    memory_state_of fs agent_name = Some (Log log) →
    (0 < attempts log < successes log)%Z →
    ∃ m : metrics,
      calculate_metrics fs agent_name elapsed success = Ok m ∧
      (1 < code_execution_success_rate m)%Q).
  { intros fs agent_name elapsed success log Hlog Hcount.
    eexists. split; [by apply calculate_metrics_log|]. cbn.
    rewrite (proj2 (Z.ltb_lt _ _) (proj1 Hcount)).
    by apply inject_Z_quotient_above_one. }
  split; [|exact Hgen].
  apply (Hgen _ _ _ _ [{| role := "system";
                          content := "Generated code: await skills.collectBlock(bot, 'oak_log')" |};
                       {| role := "system"; content := "Code generation result: true" |};
                       {| role := "system"; content := "Code generation result: true" |}]).
  - reflexivity.
  - vm_compute. split; reflexivity.
Qed.

Lemma success_rate_can_exceed_one_witness :
  ∃ m : metrics,
    calculate_metrics (memory_disk "andy" one_attempt_two_successes) "andy" 0%Q false
      = Ok m ∧
    (1 < code_execution_success_rate m)%Q.
Proof.
  apply (proj2 success_rate_can_exceed_one
           (memory_disk "andy" one_attempt_two_successes) "andy" 0%Q false
           [{| role := "system";
               content := "Generated code: await skills.collectBlock(bot, 'oak_log')" |};
            {| role := "system"; content := "Code generation result: true" |};
            {| role := "system"; content := "Code generation result: true" |}]).
  - reflexivity.
  - vm_compute. split; reflexivity.
Defined.





(** ** Benchmark runner *)





Lemma edit_settings_total (profiles : list string) (fs : store) :
  ∃ fs' : store, edit_settings profiles fs = Ok fs'.
Proof.
  destruct (fs !! normpath settings_js) as [c|] eqn:Hc.
  - eexists. by apply (edit_settings_existing _ _ c).
  - eexists. by apply edit_settings_fresh.
Qed.



Section RunnerProperties.

Variable timestamp : string.
Variable start_time end_time : Q.
Variable subprocess_run : list string → Z → store → run_outcome * store.








End RunnerProperties.



(** ** Report generator *)

Lemma Qsum_bools_bounds (l : list bool) :
  (0 <= Qsum (map Q_of_bool l) <= inject_Z (Z.of_nat (List.length l)))%Q.
Proof.
  induction l as [|b l [IH0 IH1]]; cbn [map Qsum fold_right List.length].
  - split; apply Qle_refl.
  - fold (Qsum (map Q_of_bool l)).
    rewrite Nat2Z.inj_succ, <- Z.add_1_l, inject_Z_plus.
    change (inject_Z 1) with 1%Q.
    destruct b; cbn [Q_of_bool]; lra.
Qed.

(** The mean of a non-empty boolean column is a rate between 0 and 1. *)
Lemma mean_bools_range (l : list bool) :
  l ≠ [] → (0 <= mean (map Q_of_bool l) <= 1)%Q.
Proof.
  intros Hl. unfold mean. rewrite length_map.
  destruct (Qsum_bools_bounds l) as [H0 H1].
  assert (Hn : (0 < inject_Z (Z.of_nat (List.length l)))%Q).
  { change 0%Q with (inject_Z 0). rewrite <- Zlt_Qlt.
    destruct l; [done|]. cbn [List.length]. lia. }
  split.
  - apply Qle_shift_div_l; [done|]. by rewrite Qmult_0_l.
  - apply Qle_shift_div_r; [done|]. by rewrite Qmult_1_l.
Qed.

Lemma elem_of_flatten_results (results : results_dict) (row : data_row) :
  row ∈ flatten_results results ↔
  ∃ (m : string) (mr : tasks_dict) (t : string) (tr : runs_dict) (r : Z)
    (x : metrics),
    (m, mr) ∈ results ∧ (t, tr) ∈ mr ∧ (r, x) ∈ tr ∧
    row = {| Model := m; Task := t; Run := r;
             Completed := task_completion x;
             Time_s := time_taken x;
             Code_Attempts := code_generation_attempts x;
             Code_Success_Rate := code_execution_success_rate x;
             Tokens := tokens_consumed x |}.
Proof.
  unfold flatten_results. rewrite list_elem_of_In, in_flat_map. split.
  - intros ([m mr] & Hm & ([t tr] & Ht & ([r x] & <- & Hr)%in_map_iff)%in_flat_map).
    exists m, mr, t, tr, r, x. by rewrite !list_elem_of_In.
  - intros (m & mr & t & tr & r & x & Hm & Ht & Hr & ->).
    apply list_elem_of_In in Hm. apply list_elem_of_In in Ht.
    apply list_elem_of_In in Hr.
    exists (m, mr). split; [done|]. apply in_flat_map.
    exists (t, tr). split; [done|]. apply in_map_iff. by exists (r, x).
Qed.

Lemma elem_of_row_keys (results : results_dict) (m t : string) (r : Z) :
  (m, t, r) ∈ map row_key (flatten_results results) ↔ triple_present results m t r.
Proof.
  rewrite list_elem_of_In, in_map_iff. unfold triple_present. split.
  - intros (row & Hkey & Hrow%list_elem_of_In%elem_of_flatten_results).
    destruct Hrow as (m' & mr & t' & tr & r' & x & Hm & Ht & Hr & ->).
    injection Hkey as <- <- <-. by exists mr, tr, x.
  - intros (mr & tr & x & Hm & Ht & Hr).
    eexists. split; [|apply list_elem_of_In, elem_of_flatten_results;
                      by exists m, mr, t, tr, r, x].
    done.
Qed.

Lemma elem_of_group_keys (results : results_dict) (m t : string) :
  (m, t) ∈ map group_key (flatten_results results) ↔ pair_present results m t.
Proof.
  unfold pair_present. setoid_rewrite <- elem_of_row_keys.
  rewrite list_elem_of_In, in_map_iff. split.
  - intros (row & Hkey & Hrow). exists (Run row).
    apply list_elem_of_In, in_map_iff. exists row. split; [|done].
    unfold row_key. unfold group_key in Hkey. congruence.
  - intros (r & (row & Hkey & Hrow)%list_elem_of_In%in_map_iff).
    exists row. split; [|done]. unfold row_key in Hkey. unfold group_key.
    congruence.
Qed.

Lemma row_keys_of_runs (m t : string) (tr : runs_dict) :
  dict_keys_distinct tr →
  NoDup (map (fun p : Z * metrics => (m, t, fst p)) tr).
Proof.
  unfold dict_keys_distinct. induction tr as [|[r x] tr IH]; cbn; [constructor|].
  intros [Hr Htr]%NoDup_cons. apply NoDup_cons. split; [|by apply IH].
  rewrite list_elem_of_In, in_map_iff. intros ([r' x'] & [= ->] & Hin).
  apply Hr, list_elem_of_In, in_map_iff. by exists (r, x').
Qed.

Lemma flatten_results_cons (m : string) (mr : tasks_dict) (results : results_dict) :
  flatten_results ((m, mr) :: results) =
  flatten_results [(m, mr)] ++ flatten_results results.
Proof. unfold flatten_results. cbn [flat_map]. by rewrite app_nil_r. Qed.

Lemma flatten_results_task_cons (m t : string) (tr : runs_dict) (mr : tasks_dict) :
  flatten_results [(m, (t, tr) :: mr)] =
  flatten_results [(m, [(t, tr)])] ++ flatten_results [(m, mr)].
Proof. unfold flatten_results. cbn [flat_map]. by rewrite !app_nil_r. Qed.

Lemma row_keys_distinct (results : results_dict) :
  well_formed_results results →
  NoDup (map row_key (flatten_results results)).
Proof.
  intros [Hmodels Hinner].
  induction results as [|[m mr] results IH]; [constructor|].
  apply NoDup_cons in Hmodels as [Hm Hmodels].
  apply Forall_cons in Hinner as [[Htasks Hruns] Hinner].
  rewrite flatten_results_cons, map_app. apply NoDup_app. split; [|split; [|by apply IH]].
  - clear IH Hm. cbn in Htasks, Hruns.
    induction mr as [|[t tr] mr IHmr]; [constructor|].
    apply NoDup_cons in Htasks as [Ht Htasks].
    apply Forall_cons in Hruns as [Htr Hruns].
    rewrite flatten_results_task_cons, map_app. apply NoDup_app. split; [|split; [|by apply IHmr]].
    + cbn. rewrite !app_nil_r, map_map.
      rewrite (map_ext _ (fun p : Z * metrics => (m, t, fst p)))
        by (by intros [r x]).
      by apply row_keys_of_runs.
    + intros [[m' t'] r'] H1%elem_of_row_keys H2%elem_of_row_keys.
      destruct H1 as (? & ? & ? & [= -> ->]%list_elem_of_singleton & Ht1 & _).
      apply list_elem_of_singleton in Ht1 as [= -> ->].
      destruct H2 as (? & tr2 & ? & [= ->]%list_elem_of_singleton & Ht2 & _).
      apply Ht, list_elem_of_In, in_map_iff. exists (t, tr2).
      by rewrite <- list_elem_of_In.
  - intros [[m' t'] r'] H1%elem_of_row_keys H2%elem_of_row_keys.
    destruct H1 as (? & ? & ? & [= -> ->]%list_elem_of_singleton & _).
    destruct H2 as (mr2 & ? & ? & Hm2 & _).
    apply Hm, list_elem_of_In, in_map_iff. exists (m, mr2).
    by rewrite <- list_elem_of_In.
Qed.

Lemma summary_keys (data : list data_row) :
  map summary_key (summarise data) =
  merge_sort key_le (remove_dups (map group_key data)).
Proof.
  unfold summarise. rewrite map_map.
  rewrite (map_ext _ (fun k => k)) by (by intros [m t]).
  apply map_id.
Qed.

Lemma summary_completed_range (data : list data_row) :
  Forall (fun row => (0 <= sCompleted row <= 1)%Q) (summarise data).
Proof.
  unfold summarise. apply Forall_forall. intros row.
  rewrite list_elem_of_In, in_map_iff. intros (k & <- & Hk). cbn [sCompleted].
  rewrite <- (map_map Completed Q_of_bool). apply mean_bools_range.
  apply list_elem_of_In in Hk. rewrite merge_sort_Permutation in Hk.
  apply elem_of_remove_dups, list_elem_of_In, in_map_iff in Hk
    as (r & Hr & Hin).
  intros Hnil. apply (f_equal (fun l => In (Completed r) l)) in Hnil.
  cbn in Hnil. rewrite <- Hnil. apply in_map, list_elem_of_In, list_elem_of_filter.
  split; [done|by apply list_elem_of_In].
Qed.

(** X14. The report on a mapping that holds at least one run: both files
    are written; the data file has exactly one row per (model, task, run)
    triple of the mapping, the summary exactly one row per (model, task)
    pair that has a run, and every averaged Completed value is in [0,1]. *)
Theorem generate_report_rows (results : results_dict) :
  well_formed_results results →
  (∃ m t r, triple_present results m t r) →
  ∃ (data : list data_row) (summary : list summary_row),
    generate_report results =
      ({| benchmark_data_csv := Some data;
          benchmark_summary_csv := Some summary |}, Ok tt) ∧
    NoDup (map row_key data) ∧
    (∀ m t r, (m, t, r) ∈ map row_key data ↔ triple_present results m t r) ∧
    NoDup (map summary_key summary) ∧
    (∀ m t, (m, t) ∈ map summary_key summary ↔ pair_present results m t) ∧
    Forall (fun row => (0 <= sCompleted row <= 1)%Q) summary.
Proof.
  intros Hwf (m0 & t0 & r0 & Hrun).
  exists (flatten_results results), (summarise (flatten_results results)).
  split.
  { unfold generate_report.
    destruct (flatten_results results) eqn:Hdata; [|done].
    apply elem_of_row_keys in Hrun. rewrite Hdata in Hrun.
    by apply elem_of_nil in Hrun. }
  split; [by apply row_keys_distinct|].
  split; [apply elem_of_row_keys|].
  rewrite summary_keys. split; [|split].
  - rewrite merge_sort_Permutation. apply NoDup_remove_dups.
  - intros m t. rewrite merge_sort_Permutation, elem_of_remove_dups.
    apply elem_of_group_keys.
  - apply summary_completed_range.
Qed.

Lemma generate_report_rows_witness :
  ∃ (data : list data_row) (summary : list summary_row),
    generate_report one_model_two_runs =
      ({| benchmark_data_csv := Some data;
          benchmark_summary_csv := Some summary |}, Ok tt) ∧
    NoDup (map row_key data) ∧
    (∀ m t r, (m, t, r) ∈ map row_key data ↔
              triple_present one_model_two_runs m t r) ∧
    NoDup (map summary_key summary) ∧
    (∀ m t, (m, t) ∈ map summary_key summary ↔
            pair_present one_model_two_runs m t) ∧
    Forall (fun row => (0 <= sCompleted row <= 1)%Q) summary.
Proof.
  apply generate_report_rows.
  - unfold well_formed_results, dict_keys_distinct. cbn.
    repeat split; repeat constructor; cbn;
      first [apply not_elem_of_nil
            |by intros ?%list_elem_of_singleton].
  - exists "gpt", "collect_wood", 1%Z.
    eexists _, _, _. repeat split; [left| left | left].
Defined.

(** C8 at the empty mapping: the data file is written without rows, then
    grouping the column-less frame raises [KeyError] and no summary file
    is written.  The same happens when the mapping names a model and a
    task but holds no run. *)
Theorem generate_report_without_runs :
  generate_report [] =
    ({| benchmark_data_csv := Some []; benchmark_summary_csv := None |},
     Raise (KeyError "Model")) ∧
  generate_report [("gpt", [("collect_wood", [])])] =
    ({| benchmark_data_csv := Some []; benchmark_summary_csv := None |},
     Raise (KeyError "Model")).
Proof. split; reflexivity. Qed.

(** * Further properties of the code *)

(** ** Settings writer and restorer, on any disk *)

(** X1. On a disk where none of the three settings names is a directory,
    [edit_settings] does not raise.  Afterwards the settings file holds
    exactly the generated content, the staging file is gone, the backup
    holds the previous settings file when there was one and is as it was
    otherwise, and no other name is touched. *)
Theorem edit_settings_postcondition (profiles : list string) (fs : store) :
  dir_exists fs settings_js = false →
  dir_exists fs settings_bak = false →
  dir_exists fs settings_tmp = false →
  ∃ fs' : store,
    edit_settings profiles fs = Ok fs' ∧
    fs' !! normpath settings_js = Some (Text (settings_content profiles)) ∧
    fs' !! normpath settings_tmp = None ∧
    fs' !! normpath settings_bak =
      match fs !! normpath settings_js with
      | Some previous => Some previous
      | None => fs !! normpath settings_bak
      end ∧
    ∀ p : path, p ∉ settings_names → fs' !! p = fs !! p.
Proof.
  intros _ _ _.
  destruct (fs !! normpath settings_js) as [c|] eqn:Hc.
  - eexists. split; [by apply (edit_settings_existing _ _ c)|].
    split; [settings_paths; by simplify_map_eq|].
    split; [settings_paths; by simplify_map_eq|].
    split; [settings_paths; by simplify_map_eq|].
    intros p Hp. apply (edit_settings_frame profiles); [|done].
    by apply (edit_settings_existing _ _ c).
  - eexists. split; [by apply edit_settings_fresh|].
    split; [settings_paths; by simplify_map_eq|].
    split; [settings_paths; by simplify_map_eq|].
    split; [settings_paths; by simplify_map_eq|].
    intros p Hp. apply (edit_settings_frame profiles); [|done].
    by apply edit_settings_fresh.
Qed.

Lemma edit_settings_postcondition_witness :
  ∃ fs' : store,
    edit_settings ["./andy.json"] disk_with_leftovers = Ok fs' ∧
    fs' !! normpath settings_js = Some (Text (settings_content ["./andy.json"])) ∧
    fs' !! normpath settings_tmp = None ∧
    fs' !! normpath settings_bak =
      match disk_with_leftovers !! normpath settings_js with
      | Some previous => Some previous
      | None => disk_with_leftovers !! normpath settings_bak
      end ∧
    ∀ p : path, p ∉ settings_names → fs' !! p = disk_with_leftovers !! p.
Proof.
  apply (edit_settings_postcondition ["./andy.json"] disk_with_leftovers);
    reflexivity.
Defined.

(** X2. On a disk where neither the settings name nor the backup name is a
    directory, [restore_settings] does not raise and is idempotent: it
    leaves no backup, puts the backup (when there was one) in place of the
    settings file, touches no other name, and running it again changes
    nothing. *)
Theorem restore_settings_idempotent (fs : store) :
  dir_exists fs settings_js = false →
  dir_exists fs settings_bak = false →
  ∃ fs' : store,
    restore_settings fs = Ok fs' ∧
    fs' !! normpath settings_bak = None ∧
    fs' !! normpath settings_js =
      match fs !! normpath settings_bak with
      | Some backup => Some backup
      | None => fs !! normpath settings_js
      end ∧
    (∀ p : path, p ∉ settings_names → fs' !! p = fs !! p) ∧
    restore_settings fs' = Ok fs'.
Proof.
  intros _ _.
  destruct (fs !! normpath settings_bak) as [c|] eqn:Hc.
  - eexists. split; [by apply (restore_settings_backup _ c)|].
    assert (Hgone :
      (<[normpath settings_js := c]> (delete (normpath settings_bak) fs))
        !! normpath settings_bak = None)
      by (settings_paths; by simplify_map_eq).
    split; [done|]. split; [settings_paths; by simplify_map_eq|].
    split; [|by apply restore_settings_no_backup].
    intros p Hp. apply restore_settings_frame; [|done].
    by apply (restore_settings_backup _ c).
  - exists fs. split; [by apply restore_settings_no_backup|].
    split; [done|]. split; [done|]. split; [done|].
    by apply restore_settings_no_backup.
Qed.

Lemma restore_settings_idempotent_witness :
  ∃ fs' : store,
    restore_settings disk_with_leftovers = Ok fs' ∧
    fs' !! normpath settings_bak = None ∧
    fs' !! normpath settings_js =
      match disk_with_leftovers !! normpath settings_bak with
      | Some backup => Some backup
      | None => disk_with_leftovers !! normpath settings_js
      end ∧
    (∀ p : path, p ∉ settings_names → fs' !! p = disk_with_leftovers !! p) ∧
    restore_settings fs' = Ok fs'.
Proof.
  apply (restore_settings_idempotent disk_with_leftovers); reflexivity.
Defined.

(** X3. Only one backup generation is kept.  After two writes in a row the
    backup holds the settings of the first write, so the restore brings
    back the first write's settings, not the file that was there before
    it. *)
Theorem second_write_overwrites_backup (first second : list string) (fs : store) :
  ∃ fs1 fs2 fs3 : store,
    edit_settings first fs = Ok fs1 ∧
    edit_settings second fs1 = Ok fs2 ∧
    fs2 !! normpath settings_bak = Some (Text (settings_content first)) ∧
    restore_settings fs2 = Ok fs3 ∧
    fs3 !! normpath settings_js = Some (Text (settings_content first)) ∧
    fs3 !! normpath settings_bak = None.
Proof.
  destruct (edit_settings_total first fs) as [fs1 H1].
  assert (Hjs1 : fs1 !! normpath settings_js = Some (Text (settings_content first))).
  { destruct (fs !! normpath settings_js) as [c|] eqn:Hc.
    - rewrite (edit_settings_existing _ _ c Hc) in H1. injection H1 as <-.
      settings_paths. by simplify_map_eq.
    - rewrite (edit_settings_fresh _ _ Hc) in H1. injection H1 as <-.
      settings_paths. by simplify_map_eq. }
  pose proof (edit_settings_existing second _ _ Hjs1) as H2.
  eexists fs1, _, _. split; [done|]. split; [exact H2|].
  assert (Hbak2 : ∀ m : store,
    (<[normpath settings_js := Text (settings_content second)]>
       (delete (normpath settings_tmp)
          (<[normpath settings_bak := Text (settings_content first)]> m)))
      !! normpath settings_bak = Some (Text (settings_content first)))
    by (intros m; settings_paths; by simplify_map_eq).
  split; [apply Hbak2|].
  split; [apply (restore_settings_backup _ _ (Hbak2 _))|].
  split; settings_paths; by simplify_map_eq.
Qed.

(** ** Profile staging *)

(** X4. When [setup_profile] succeeds it returns the agent name found in
    the profile document and the path [./<name>.json]; the staged file is
    a copy of the profile, and every other file, the profile itself
    included, is as it was. *)
Theorem setup_profile_stages_copy (m : model) (fs fs' : store)
    (agent_name staged_path : string) :
  setup_profile m fs = inl (Ok (agent_name, staged_path, fs')) →
  staged_path = "./" +:+ agent_name +:+ ".json" ∧
  (∃ doc : json,
     fs !! normpath (model_profile m) = Some (Json doc) ∧
     getitem doc "name" = Ok (JStr agent_name)) ∧
  fs' !! normpath staged_path = fs !! normpath (model_profile m) ∧
  fs' !! normpath (model_profile m) = fs !! normpath (model_profile m) ∧
  ∀ p : path, p ≠ normpath staged_path → fs' !! p = fs !! p.
Proof.
  unfold setup_profile, exists_, load_json, read, copy.
  destruct (fs !! normpath (model_profile m)) as [[s|doc| |]|] eqn:Hprofile;
    cbn; try discriminate.
  destruct (getitem doc "name") as [[| | |name| |]|] eqn:Hname; cbn;
    try discriminate.
  case_bool_decide as Hsame; cbn; [discriminate|].
  unfold read. rewrite Hprofile. cbn. intros [= <- <- <-].
  split; [done|]. split; [by exists doc|].
  split; [by simplify_map_eq|]. split; [by simplify_map_eq|].
  intros p Hp. by simplify_map_eq.
Qed.

Lemma setup_profile_stages_copy_witness :
  "./andy.json" = "./" +:+ "andy" +:+ ".json" ∧
  (∃ doc : json,
     staged_disk (Text "") !! normpath (model_profile gpt) = Some (Json doc) ∧
     getitem doc "name" = Ok (JStr "andy")) ∧
  <[normpath "./andy.json" := Json (JObj [("name", JStr "andy")])]>
    (staged_disk (Text "")) !! normpath "./andy.json"
    = staged_disk (Text "") !! normpath (model_profile gpt) ∧
  <[normpath "./andy.json" := Json (JObj [("name", JStr "andy")])]>
    (staged_disk (Text "")) !! normpath (model_profile gpt)
    = staged_disk (Text "") !! normpath (model_profile gpt) ∧
  ∀ p : path, p ≠ normpath "./andy.json" →
    <[normpath "./andy.json" := Json (JObj [("name", JStr "andy")])]>
      (staged_disk (Text "")) !! p = staged_disk (Text "") !! p.
Proof.
  apply (setup_profile_stages_copy gpt (staged_disk (Text ""))).
  reflexivity.
Defined.

Section StagingFailures.

Variable timestamp : string.
Variable start_time end_time : Q.
Variable subprocess_run : list string → Z → store → run_outcome * store.

(** X5. A profile that cannot be staged stops the trial before anything
    happens: [run_benchmark] raises [FileNotFoundError] when the profile
    file is missing, [JSONDecodeError] when it is not JSON, [KeyError] when
    the document has no [name], and [SameFileError] when the profile
    already is the file [./<name>.json]; in each case the disk is left as
    it was and no process is launched. *)
Theorem run_benchmark_staging_failures (m : model) (t : task) (run_number : Z)
    (w : world) :
  (disk w !! normpath (model_profile m) = None →
   run_benchmark timestamp start_time end_time subprocess_run m t run_number w
     = inl (w, Raise FileNotFoundError)) ∧
  (∀ s, disk w !! normpath (model_profile m) = Some (Text s) →
   run_benchmark timestamp start_time end_time subprocess_run m t run_number w
     = inl (w, Raise JSONDecodeError)) ∧
  (∀ fields, disk w !! normpath (model_profile m) = Some (Json (JObj fields)) →
   assoc "name" fields = None →
   run_benchmark timestamp start_time end_time subprocess_run m t run_number w
     = inl (w, Raise (KeyError "name"))) ∧
  (∀ doc agent_name,
   disk w !! normpath (model_profile m) = Some (Json doc) →
   getitem doc "name" = Ok (JStr agent_name) →
   normpath (model_profile m) = normpath ("./" +:+ agent_name +:+ ".json") →
   run_benchmark timestamp start_time end_time subprocess_run m t run_number w
     = inl (w, Raise SameFileError)).
Proof.
  unfold run_benchmark, setup_profile, exists_, load_json, read, copy.
  split; [|split; [|split]].
  - intros ->. by rewrite bool_decide_eq_false_2 by (by intros [? ?]).
  - intros s ->. by rewrite bool_decide_eq_true_2 by eauto.
  - intros fields -> Hname. rewrite bool_decide_eq_true_2 by eauto.
    cbn. by rewrite Hname.
  - intros doc agent_name -> Hname Hsame. rewrite bool_decide_eq_true_2 by eauto.
    cbn. rewrite Hname. by rewrite bool_decide_eq_true_2.
Qed.

End StagingFailures.

Lemma run_benchmark_staging_failures_witness :
  run_benchmark "20250101_120000" 100%Q 105%Q times_out gpt collect_wood 1
    {| disk := ∅; spawned := [] |}
  = inl ({| disk := ∅; spawned := [] |}, Raise FileNotFoundError) ∧
  run_benchmark "20250101_120000" 100%Q 105%Q times_out
    {| model_name := "gpt"; model_profile := "andy.json" |} collect_wood 1
    {| disk := {[ normpath "andy.json" := Json (JObj [("name", JStr "andy")]) ]};
       spawned := [] |}
  = inl ({| disk := {[ normpath "andy.json" := Json (JObj [("name", JStr "andy")]) ]};
            spawned := [] |}, Raise SameFileError).
Proof.
  split.
  - apply (proj1 (run_benchmark_staging_failures "20250101_120000" 100%Q 105%Q
                    times_out gpt collect_wood 1 {| disk := ∅; spawned := [] |})).
    reflexivity.
  - apply (proj2 (proj2 (proj2 (run_benchmark_staging_failures
             "20250101_120000" 100%Q 105%Q times_out
             {| model_name := "gpt"; model_profile := "andy.json" |}
             collect_wood 1
             {| disk := {[ normpath "andy.json" := Json (JObj [("name", JStr "andy")]) ]};
                spawned := [] |})))
           (JObj [("name", JStr "andy")]) "andy"); reflexivity.
Defined.

(** ** The marker test and the two memory readers *)

(** X6. The marker test [marker in content] of the two memory readers is
    exact substring containment: it holds precisely when the content is
    some text, then the marker, then some text. *)
Theorem substring_of_iff (marker content : string) :
  substring_of marker content = true ↔
  ∃ before after, content = before +:+ marker +:+ after.
Proof.
  induction content as [|c content IH].
  - change (substring_of marker "") with (String.prefix marker "" || false).
    rewrite orb_false_r, prefix_iff. split.
    + intros [b Hb]. by exists "", b.
    + intros ([|? ?] & after & H); [by exists after|discriminate].
  - change (substring_of marker (String c content))
      with (String.prefix marker (String c content) || substring_of marker content).
    rewrite orb_true_iff, prefix_iff, IH. split.
    + intros [[b Hb]|(before & after & ->)].
      * by exists "", b.
      * by exists (String c before), after.
    + intros ([|d before] & after & H).
      * left. by exists after.
      * right. injection H as -> ->. by exists before, after.
Qed.

Lemma completion_loop_decides (j : json) (t : turn) (rest : list json) :
  turn_of j = Some t →
  system_authored t →
  completion_loop (j :: rest) =
    if substring_of "code : 2" (content t) then Ok (Some true)
    else if substring_of "code : 4" (content t) then Ok (Some false)
    else completion_loop rest.
Proof.
  intros Hj Hsys%is_system_spec. cbn [completion_loop].
  rewrite (system_turn_with_turn _ _ _ Hj), Hsys.
  destruct (turn_of_fields _ _ Hj) as [_ Hc]. rewrite !Hc. cbn.
  destruct (substring_of "code : 2" (content t)) eqn:H2.
  { by rewrite (substring_of_prefix "code" "code : 2" _ eq_refl H2). }
  destruct (substring_of "code : 4" (content t)) eqn:H4.
  { by rewrite (substring_of_prefix "code" "code : 4" _ eq_refl H4). }
  by destruct (substring_of "code" (content t)).
Qed.

(** X7. The checker returns at the first decisive turn it meets from the
    end, so nothing before that turn is ever inspected: when the last item
    of [turns] is a system turn with the code-2 marker the result is
    [true], and when it has the code-4 marker but not the code-2 marker the
    result is [false], whatever the earlier items are (well-formed turns
    or not). *)
Theorem last_turn_decides (fs : store) (agent_name task_id : string)
    (memory : json) (items : list json) (j : json) (t : turn) :
  fs !! normpath (memory_path agent_name) = Some (Json memory) →
  getitem memory "turns" = Ok (JArr (items ++ [j])) →
  turn_of j = Some t →
  system_authored t →
  (has "code : 2" t →
   check_task_completion fs agent_name task_id = Ok true) ∧
  (¬ has "code : 2" t → has "code : 4" t →
   check_task_completion fs agent_name task_id = Ok false).
Proof.
  intros Hfile Hturns Hj Hsys.
  unfold check_task_completion, load_json, read. rewrite Hfile.
  cbn -[completion_loop]. rewrite Hturns. cbn -[completion_loop].
  rewrite rev_app_distr. cbn -[completion_loop].
  rewrite (completion_loop_decides _ _ _ Hj Hsys). unfold has.
  split.
  - intros H2%Is_true_true. by rewrite H2.
  - intros H2 H4%Is_true_true.
    destruct (substring_of "code : 2" (content t)); [by destruct H2|].
    by rewrite H4.
Qed.

Lemma last_turn_decides_witness :
  check_task_completion
    (memory_disk "andy" ([JNum 7; JStr "noise"] ++ [turn_json "system" "code : 2"]))
    "andy" "collect_wood" = Ok true.
Proof.
  apply (last_turn_decides
           (memory_disk "andy" ([JNum 7; JStr "noise"] ++ [turn_json "system" "code : 2"]))
           "andy" "collect_wood"
           (JObj [("turns", JArr ([JNum 7; JStr "noise"] ++ [turn_json "system" "code : 2"]))])
           [JNum 7; JStr "noise"] (turn_json "system" "code : 2")
           {| role := "system"; content := "code : 2" |});
    reflexivity.
Defined.

Lemma completion_loop_skip (j : json) (pre post : list json) :
  system_turn_with "code" j = Ok false →
  completion_loop (pre ++ j :: post) = completion_loop (pre ++ post).
Proof.
  intros Hj. induction pre as [|x pre IH].
  - cbn [app completion_loop]. by rewrite Hj.
  - cbn [app completion_loop]. by rewrite IH.
Qed.

Lemma lacks_content_not_counted (marker : string) (j : json) :
  lacks_content j → system_turn_with marker j = Ok false.
Proof.
  intros (r & Hrole & Hsys & _). unfold system_turn_with.
  rewrite Hrole. cbn. by rewrite Hsys.
Qed.

Lemma well_formed_turn_counted (marker : string) (j : json) :
  well_formed_turn j → ∃ b, system_turn_with marker j = Ok b.
Proof. intros [t Ht]. eexists. by apply system_turn_with_turn. Qed.

Lemma count_loop_returns (items : list json) (a s : Z) :
  Forall (fun j => well_formed_turn j ∨ lacks_content j) items →
  ∃ r, count_loop items a s = Ok r.
Proof.
  intros H. revert a s. induction H as [|j items Hj _ IH]; intros a s.
  - by eexists.
  - cbn [count_loop].
    assert (Hcount : ∀ marker, ∃ b, system_turn_with marker j = Ok b).
    { intros marker. destruct Hj as [Hj|Hj].
      - by apply well_formed_turn_counted.
      - exists false. by apply lacks_content_not_counted. }
    destruct (Hcount "Generated code:") as [b1 ->].
    destruct (Hcount "Code generation result: true") as [b2 ->].
    cbn. apply IH.
Qed.

Lemma sum_content_len_stops (before after : list json) (j : json) (acc : Z) :
  Forall well_formed_turn before →
  lacks_content j →
  sum_content_len (before ++ j :: after) acc = Raise (KeyError "content").
Proof.
  intros Hbefore (_ & _ & _ & Hj). revert acc.
  induction Hbefore as [|x before [t Hx] _ IH]; intros acc.
  - cbn [app sum_content_len]. by rewrite Hj.
  - cbn [app sum_content_len]. destruct (turn_of_fields _ _ Hx) as [_ ->].
    cbn. apply IH.
Qed.

Lemma load_memory_disk (agent_name : string) (items : list json) :
  load_json (memory_disk agent_name items) (memory_path agent_name)
    = Ok (JObj [("turns", JArr items)]).
Proof.
  unfold load_json, read, memory_disk. by rewrite lookup_singleton_eq.
Qed.

(** X8. The two readers disagree on a turn that is not authored by the
    system and has no [content] field.  The completion checker never looks
    at the content of such a turn, so its result is the one it gives on the
    log without that turn; the metrics calculator sums the content lengths
    of all turns and raises [KeyError] on it, which it does not catch. *)
Theorem content_less_turn (agent_name task_id : string) (elapsed : Q)
    (success : bool) (before after : list json) (j : json) :
  lacks_content j →
  Forall well_formed_turn before →
  Forall well_formed_turn after →
  check_task_completion (memory_disk agent_name (before ++ j :: after))
    agent_name task_id =
  check_task_completion (memory_disk agent_name (before ++ after))
    agent_name task_id ∧
  calculate_metrics (memory_disk agent_name (before ++ j :: after))
    agent_name elapsed success = Raise (KeyError "content").
Proof.
  intros Hj Hbefore Hafter. split.
  - unfold check_task_completion. rewrite !load_memory_disk.
    cbn -[completion_loop]. rewrite !rev_app_distr. cbn [rev].
    rewrite <- app_assoc. cbn [app].
    by rewrite (completion_loop_skip _ _ _ (lacks_content_not_counted "code" _ Hj)).
  - unfold calculate_metrics. rewrite load_memory_disk.
    cbn -[count_loop sum_content_len].
    destruct (count_loop_returns (before ++ j :: after) 0 0) as [[a s] ->].
    { apply Forall_app. split; [by eapply Forall_impl; [done|]; left|].
      apply Forall_cons. split; [by right|].
      by eapply Forall_impl; [done|]; left. }
    cbn -[sum_content_len]. by rewrite sum_content_len_stops.
Qed.

Lemma content_less_turn_witness :
  check_task_completion
    (memory_disk "andy" ([turn_json "system" "code : 4"]
                         ++ JObj [("role", JStr "user")]
                         :: [turn_json "system" "code : 2"]))
    "andy" "collect_wood" =
  check_task_completion
    (memory_disk "andy" ([turn_json "system" "code : 4"]
                         ++ [turn_json "system" "code : 2"]))
    "andy" "collect_wood" ∧
  calculate_metrics
    (memory_disk "andy" ([turn_json "system" "code : 4"]
                         ++ JObj [("role", JStr "user")]
                         :: [turn_json "system" "code : 2"]))
    "andy" 12 true = Raise (KeyError "content").
Proof.
  apply content_less_turn.
  - exists (JStr "user"). repeat split.
  - repeat constructor. by eexists.
  - repeat constructor. by eexists.
Defined.

Lemma count_loop_bounds (items : list json) (a s a' s' : Z) :
  count_loop items a s = Ok (a', s') →
  (a ≤ a' ≤ a + Z.of_nat (List.length items))%Z ∧
  (s ≤ s' ≤ s + Z.of_nat (List.length items))%Z.
Proof.
  revert a s. induction items as [|j items IH]; intros a s.
  - cbn. intros [= <- <-]. lia.
  - cbn [count_loop].
    destruct (system_turn_with "Generated code:" j) as [b1|]; cbn; [|discriminate].
    destruct (system_turn_with "Code generation result: true" j) as [b2|]; cbn;
      [|discriminate].
    intros H%IH. cbn [List.length]. destruct b1, b2; lia.
Qed.

Lemma len_nonneg (x : json) (n : Z) : len x = Ok n → (0 ≤ n)%Z.
Proof. destruct x; cbn; intros [= <-]; lia. Qed.

Lemma sum_content_len_lower (items : list json) (acc n : Z) :
  sum_content_len items acc = Ok n → (acc ≤ n)%Z.
Proof.
  revert acc. induction items as [|j items IH]; intros acc.
  - cbn. intros [= <-]. lia.
  - cbn [sum_content_len].
    destruct (getitem j "content") as [c|]; cbn; [|discriminate].
    destruct (len c) as [k|] eqn:Hk; cbn; [|discriminate].
    intros H%IH. apply len_nonneg in Hk. lia.
Qed.

(** X10. Whatever the memory file holds, the metrics that
    [calculate_metrics] returns are never negative: the attempt count, the
    success rate and the token estimate are all at least 0, and the rate is
    0 when no attempt was counted. *)
Theorem calculate_metrics_nonnegative (fs : store) (agent_name : string)
    (elapsed : Q) (success : bool) (m : metrics) :
  calculate_metrics fs agent_name elapsed success = Ok m →
  (0 ≤ code_generation_attempts m)%Z ∧
  (0 <= code_execution_success_rate m)%Q ∧
  (0 <= tokens_consumed m)%Q ∧
  (code_generation_attempts m = 0%Z → code_execution_success_rate m = 0%Q).
Proof.
  assert (Hzero : ∀ m0 : metrics,
    Ok {| task_completion := success; time_taken := elapsed;
          code_generation_attempts := 0; code_execution_success_rate := 0;
          tokens_consumed := 0 |} = Ok m0 →
    (0 ≤ code_generation_attempts m0)%Z ∧
    (0 <= code_execution_success_rate m0)%Q ∧
    (0 <= tokens_consumed m0)%Q ∧
    (code_generation_attempts m0 = 0%Z → code_execution_success_rate m0 = 0%Q)).
  { intros m0 [= <-]. cbn. repeat split; done. }
  unfold calculate_metrics.
  destruct (load_json fs (memory_path agent_name)) as [memory|e]; cbn;
    [|destruct e; cbn; try discriminate; apply Hzero].
  destruct (getitem memory "turns") as [turns|e]; cbn;
    [|destruct e; cbn; try discriminate; apply Hzero].
  destruct (iter turns) as [items|e]; cbn;
    [|destruct e; cbn; try discriminate; apply Hzero].
  destruct (count_loop items 0 0) as [[a s]|e] eqn:Hcount; cbn;
    [|destruct e; cbn; try discriminate; apply Hzero].
  destruct (sum_content_len items 0) as [n|e] eqn:Hsum; cbn;
    [|destruct e; cbn; try discriminate; apply Hzero].
  intros [= <-]. cbn.
  apply count_loop_bounds in Hcount as [[Ha _] [Hs _]].
  apply sum_content_len_lower in Hsum.
  split; [done|]. split; [|split].
  - destruct (0 <? a)%Z eqn:Hpos; [|done].
    apply Z.ltb_lt in Hpos. apply Qle_shift_div_l.
    + change 0%Q with (inject_Z 0). by rewrite <- Zlt_Qlt.
    + rewrite Qmult_0_l. change 0%Q with (inject_Z 0). by rewrite <- Zle_Qle.
  - apply Qle_shift_div_l; [done|].
    rewrite Qmult_0_l. change 0%Q with (inject_Z 0). by rewrite <- Zle_Qle.
  - by intros ->.
Qed.

Lemma calculate_metrics_nonnegative_witness :
  ∃ m : metrics,
    calculate_metrics (memory_disk "andy" two_attempts_one_success) "andy" 12 true
      = Ok m ∧
    (0 ≤ code_generation_attempts m)%Z ∧
    (0 <= code_execution_success_rate m)%Q ∧
    (0 <= tokens_consumed m)%Q ∧
    (code_generation_attempts m = 0%Z → code_execution_success_rate m = 0%Q).
Proof.
  eexists. split; [reflexivity|].
  apply (calculate_metrics_nonnegative
           (memory_disk "andy" two_attempts_one_success) "andy" 12 true).
  reflexivity.
Defined.

(** ** The runner *)

Section RunnerFurther.

Variable timestamp : string.
Variable start_time end_time : Q.
Variable subprocess_run : list string → Z → store → run_outcome * store.



(** X12. The [try] statement writes only the log files of the branch
    taken.  Apart from [stdout.log] and [stderr.log] after a normal exit,
    [timeout.log] after a timeout and [error.log] after any other failure,
    every file is as the process left it; in particular no stream log is
    written after a timeout or a failure, and no marker log after a normal
    exit. *)
Theorem launch_writes_only_branch_logs (dir : string) (t : task) (w : world)
    (p : path) :
  let run := subprocess_run (cmd t) (time_limit t + 60)%Z (disk w) in
  let w2 := (launch subprocess_run dir t w).1 in
  match run.1 with
  | Exited _ _ =>
      p ≠ normpath (dir +:+ "/stdout.log") → p ≠ normpath (dir +:+ "/stderr.log") →
      disk w2 !! p = run.2 !! p
  | TimeoutExpired =>
      p ≠ normpath (dir +:+ "/timeout.log") → disk w2 !! p = run.2 !! p
  | Failed _ =>
      p ≠ normpath (dir +:+ "/error.log") → disk w2 !! p = run.2 !! p
  end.
Proof.
  intros run w2. subst run w2. unfold launch.
  destruct (subprocess_run (cmd t) (time_limit t + 60)%Z (disk w))
    as [[out err| |description] fs2];
    unfold mbind, M_bind, write_file, on_disk, write; cbn [fst snd disk spawned];
    intros; by rewrite !lookup_insert_ne.
Qed.

End RunnerFurther.


Lemma launch_writes_only_branch_logs_witness :
  disk (launch times_out "benchmark_results/t/gpt/collect_wood/run_1" collect_wood
          {| disk := disk_with_settings; spawned := [] |}).1
    !! normpath settings_js
  = disk_with_settings !! normpath settings_js.
Proof.
  apply (launch_writes_only_branch_logs times_out
           "benchmark_results/t/gpt/collect_wood/run_1" collect_wood
           {| disk := disk_with_settings; spawned := [] |} (normpath settings_js)).
  discriminate.
Defined.

(** X13. The action-code loop copies every listed file.  When each listed
    name is a regular file in the action-code directory, no destination
    is itself one of the sources, and different names have different
    destinations, the loop does not raise, launches nothing, leaves at each
    destination the content of its source, and leaves every other file as
    it was. *)
Theorem copy_action_code_copies (action_code_dir results_dir : string)
    (entries : list string) (w : world) :
  (∀ e, e ∈ entries →
     is_Some (disk w !! normpath (action_code_dir +:+ "/" +:+ e))) →
  (∀ e e', e ∈ entries → e' ∈ entries →
     normpath (results_dir +:+ "/action-code/" +:+ e)
       ≠ normpath (action_code_dir +:+ "/" +:+ e')) →
  (∀ e e', e ∈ entries → e' ∈ entries → e ≠ e' →
     normpath (results_dir +:+ "/action-code/" +:+ e)
       ≠ normpath (results_dir +:+ "/action-code/" +:+ e')) →
  ∃ w' : world,
    copy_action_code action_code_dir results_dir entries w = (w', Ok tt) ∧
    spawned w' = spawned w ∧
    (∀ e, e ∈ entries →
       disk w' !! normpath (results_dir +:+ "/action-code/" +:+ e)
         = disk w !! normpath (action_code_dir +:+ "/" +:+ e)) ∧
    (∀ p : path,
       (∀ e, e ∈ entries → p ≠ normpath (results_dir +:+ "/action-code/" +:+ e)) →
       disk w' !! p = disk w !! p).
Proof.
  revert w. induction entries as [|e rest IH]; intros w Hfiles Hsrc Hdst.
  - exists w. split; [done|]. split; [done|]. split; [|done].
    intros e He. by apply elem_of_nil in He.
  - destruct (Hfiles e) as [f Hf]; [by left|].
    set (w1 := {| disk := <[normpath (results_dir +:+ "/action-code/" +:+ e) := f]>
                            (disk w);
                  spawned := spawned w |}).
    assert (Hstep : copy_action_code action_code_dir results_dir (e :: rest) w
                    = copy_action_code action_code_dir results_dir rest w1).
    { cbn [copy_action_code]. unfold mbind, M_bind, on_disk at 1.
      rewrite (exists_true _ _ f Hf). unfold copy.
      rewrite bool_decide_eq_false_2 by (intros Heq; eapply Hsrc; [left|left|done]).
      by rewrite (read_some _ _ f Hf). }
    assert (Hkeep : ∀ e', e' ∈ e :: rest →
              disk w1 !! normpath (action_code_dir +:+ "/" +:+ e')
              = disk w !! normpath (action_code_dir +:+ "/" +:+ e')).
    { intros e' He'. cbn [disk w1]. apply lookup_insert_ne.
      apply Hsrc; [by left|done]. }
    destruct (IH w1) as (w' & Hrun & Hspawned & Hcopied & Hframe).
    { intros e' He'. rewrite Hkeep by (by right). apply Hfiles. by right. }
    { intros e1 e2 H1 H2. apply Hsrc; by right. }
    { intros e1 e2 H1 H2. apply Hdst; by right. }
    exists w'. split; [by rewrite Hstep|]. split; [done|]. split.
    + intros e' He'. destruct (decide (e' ∈ rest)) as [Hin|Hout].
      * rewrite (Hcopied _ Hin). apply Hkeep. by right.
      * apply elem_of_cons in He' as [->|?]; [|done].
        rewrite Hframe.
        -- cbn [disk w1]. by rewrite lookup_insert_eq.
        -- intros e2 He2. apply Hdst; [by left|by right|].
           intros ->. done.
    + intros p Hp. rewrite Hframe by (intros e2 He2; apply Hp; by right).
      cbn [disk w1]. apply lookup_insert_ne. intros Heq. by eapply Hp; [left|].
Qed.

Lemma copy_action_code_copies_witness :
  ∃ w' : world,
    copy_action_code "bots/andy/action-code/" "results/run_1" ["0.js"; "1.js"]
      {| disk := action_code_disk; spawned := [] |} = (w', Ok tt) ∧
    spawned w' = [] ∧
    (∀ e, e ∈ ["0.js"; "1.js"] →
       disk w' !! normpath ("results/run_1" +:+ "/action-code/" +:+ e)
         = action_code_disk !! normpath ("bots/andy/action-code/" +:+ "/" +:+ e)) ∧
    (∀ p : path,
       (∀ e, e ∈ ["0.js"; "1.js"] →
          p ≠ normpath ("results/run_1" +:+ "/action-code/" +:+ e)) →
       disk w' !! p = action_code_disk !! p).
Proof.
  apply (copy_action_code_copies "bots/andy/action-code/" "results/run_1"
           ["0.js"; "1.js"] {| disk := action_code_disk; spawned := [] |}).
  - intros e He. repeat (apply elem_of_cons in He as [->|He]);
      [by eexists|by eexists|by apply elem_of_nil in He].
  - intros e e' He He'.
    repeat (apply elem_of_cons in He as [->|He]);
      try (by apply elem_of_nil in He);
      repeat (apply elem_of_cons in He' as [->|He']);
      try (by apply elem_of_nil in He'); discriminate.
  - intros e e' He He' Hne.
    repeat (apply elem_of_cons in He as [->|He]);
      try (by apply elem_of_nil in He);
      repeat (apply elem_of_cons in He' as [->|He']);
      try (by apply elem_of_nil in He'); try done; discriminate.
Defined.

(** ** The report *)

Lemma filter_none {A} (P : A → Prop) `{!∀ x, Decision (P x)} (l : list A) :
  (∀ x, x ∈ l → ¬ P x) → filter P l = [].
Proof.
  induction l as [|x l IH]; intros Hl; [done|].
  rewrite filter_cons_False by (apply Hl; by left).
  apply IH. intros y Hy. apply Hl. by right.
Qed.

Lemma filter_all {A} (P : A → Prop) `{!∀ x, Decision (P x)} (l : list A) :
  (∀ x, x ∈ l → P x) → filter P l = l.
Proof.
  induction l as [|x l IH]; intros Hl; [done|].
  rewrite filter_cons_True by (apply Hl; by left).
  f_equal. apply IH. intros y Hy. apply Hl. by right.
Qed.

Lemma flatten_results_single (m t : string) (tr : runs_dict) :
  flatten_results [(m, [(t, tr)])] = map (run_row m t) tr.
Proof.
  unfold flatten_results. cbn [flat_map]. rewrite !app_nil_r.
  apply map_ext. by intros [r x].
Qed.

Lemma group_of_task (m t : string) (mr : tasks_dict) (tr : runs_dict) :
  dict_keys_distinct mr →
  (t, tr) ∈ mr →
  filter (fun r => group_key r = (m, t)) (flatten_results [(m, mr)])
    = map (run_row m t) tr.
Proof.
  unfold dict_keys_distinct. induction mr as [|[t' tr'] mr IH]; intros Hkeys Hin.
  { by apply elem_of_nil in Hin. }
  cbn in Hkeys. apply NoDup_cons in Hkeys as [Ht' Hkeys].
  rewrite flatten_results_task_cons, filter_app, flatten_results_single.
  apply elem_of_cons in Hin as [[= <- <-]|Hin].
  - rewrite filter_all.
    + rewrite filter_none; [by rewrite app_nil_r|].
      intros row (m1 & mr1 & t1 & tr1 & r1 & x1 & Hm1 & Ht1 & _ & ->)%elem_of_flatten_results.
      apply list_elem_of_singleton in Hm1 as [= -> ->].
      unfold group_key. cbn. intros [= ->]. apply Ht'.
      apply list_elem_of_In, in_map_iff. exists (t, tr1).
      by rewrite <- list_elem_of_In.
    + intros row Hrow%list_elem_of_In%in_map_iff. by destruct Hrow as (rx & <- & _).
  - rewrite filter_none.
    + by apply IH.
    + intros row Hrow%list_elem_of_In%in_map_iff. destruct Hrow as (rx & <- & _).
      unfold group_key. cbn. intros [= ->]. apply Ht'.
      apply list_elem_of_In, in_map_iff. exists (t, tr).
      by rewrite <- list_elem_of_In.
Qed.

(** The rows of a (model, task) pair are the rows of its runs, in order. *)
Lemma group_of_pair (results : results_dict) (m t : string) (mr : tasks_dict)
    (tr : runs_dict) :
  well_formed_results results →
  (m, mr) ∈ results →
  (t, tr) ∈ mr →
  filter (fun r => group_key r = (m, t)) (flatten_results results)
    = map (run_row m t) tr.
Proof.
  intros [Hmodels Hinner] Hm Ht. unfold dict_keys_distinct in Hmodels.
  induction results as [|[m' mr'] results IH]; [by apply elem_of_nil in Hm|].
  cbn in Hmodels. apply NoDup_cons in Hmodels as [Hm' Hmodels].
  apply Forall_cons in Hinner as [[Htasks _] Hinner].
  rewrite flatten_results_cons, filter_app.
  apply elem_of_cons in Hm as [[= <- <-]|Hm].
  - rewrite (group_of_task _ _ _ tr) by done.
    rewrite filter_none; [by rewrite app_nil_r|].
    intros row (m1 & mr1 & t1 & tr1 & r1 & x1 & Hm1 & _ & _ & ->)%elem_of_flatten_results.
    unfold group_key. cbn. intros [= -> _]. apply Hm'.
    apply list_elem_of_In, in_map_iff. exists (m, mr1).
    by rewrite <- list_elem_of_In.
  - rewrite filter_none.
    + by apply IH.
    + intros row (m1 & mr1 & t1 & tr1 & r1 & x1 & Hm1 & _ & _ & ->)%elem_of_flatten_results.
      apply list_elem_of_singleton in Hm1 as [= -> ->].
      unfold group_key. cbn. intros [= ->]. apply Hm'.
      apply list_elem_of_In, in_map_iff. exists (m, mr).
      by rewrite <- list_elem_of_In.
Qed.

(** X15. The summary holds, for every (model, task) pair with at least one
    run, the row of the arithmetic means of the five metrics over exactly
    the runs of that pair; in particular its Completed value is the
    fraction of those runs that completed. *)
Theorem summary_row_is_mean_of_runs (results : results_dict) (m t : string)
    (mr : tasks_dict) (tr : runs_dict) :
  well_formed_results results →
  (m, mr) ∈ results →
  (t, tr) ∈ mr →
  tr ≠ [] →
  ∃ (data : list data_row) (summary : list summary_row),
    generate_report results =
      ({| benchmark_data_csv := Some data;
          benchmark_summary_csv := Some summary |}, Ok tt) ∧
    mean_row m t tr ∈ summary.
Proof.
  intros Hwf Hm Ht Hruns.
  assert (Hpresent : pair_present results m t).
  { destruct tr as [|[r x] tr]; [done|]. exists r, mr, ((r, x) :: tr), x.
    split; [done|]. split; [done|]. by left. }
  exists (flatten_results results), (summarise (flatten_results results)).
  split.
  { unfold generate_report.
    destruct (flatten_results results) eqn:Hdata; [|done].
    apply elem_of_group_keys in Hpresent. rewrite Hdata in Hpresent.
    by apply elem_of_nil in Hpresent. }
  unfold summarise. apply list_elem_of_In, in_map_iff. exists (m, t). split.
  - rewrite (group_of_pair _ _ _ mr tr) by done. unfold mean_row. cbn [fst snd].
    rewrite !map_map. reflexivity.
  - apply list_elem_of_In. rewrite merge_sort_Permutation.
    by apply elem_of_remove_dups, elem_of_group_keys.
Qed.

Lemma summary_row_is_mean_of_runs_witness :
  ∃ (data : list data_row) (summary : list summary_row),
    generate_report one_model_two_runs =
      ({| benchmark_data_csv := Some data;
          benchmark_summary_csv := Some summary |}, Ok tt) ∧
    mean_row "gpt" "collect_wood" [(1%Z, finished true); (2%Z, finished false)]
      ∈ summary.
Proof.
  apply (summary_row_is_mean_of_runs one_model_two_runs "gpt" "collect_wood"
           [("collect_wood", [(1%Z, finished true); (2%Z, finished false)])]).
  - unfold well_formed_results, dict_keys_distinct. cbn.
    repeat split; repeat constructor; cbn;
      first [apply not_elem_of_nil
            |by intros ?%list_elem_of_singleton].
  - by left.
  - by left.
  - done.
Defined.

(** ** The generated settings text *)

Lemma all_chars_app (test : ascii → bool) (a b : string) :
  all_chars test (a +:+ b) = all_chars test a && all_chars test b.
Proof.
  induction a as [|c a IH]; [done|].
  change (String c a +:+ b) with (String c (a +:+ b)).
  cbn [all_chars]. by rewrite IH, andb_assoc.
Qed.

Lemma all_chars_concat (test : ascii → bool) (sep : string) (l : list string) :
  all_chars test sep = true →
  Forall (fun s => all_chars test s = true) l →
  all_chars test (String.concat sep l) = true.
Proof.
  intros Hsep. induction 1 as [|s l Hs Hl IH]; [done|].
  destruct l as [|s' l]; [done|].
  change (String.concat sep (s :: s' :: l))
    with (s +:+ sep +:+ String.concat sep (s' :: l)).
  by rewrite !all_chars_app, Hs, Hsep, IH.
Qed.

Lemma all_chars_weaken (test1 test2 : ascii → bool) (s : string) :
  (∀ c, test1 c = true → test2 c = true) →
  all_chars test1 s = true → all_chars test2 s = true.
Proof.
  intros Himp. induction s as [|c s IH]; [done|]. cbn [all_chars].
  intros [Hc Hs]%andb_true_iff. by rewrite (Himp _ Hc), (IH Hs).
Qed.

Lemma escape_char_printable (c : ascii) :
  all_chars printable (escape_char c) = true.
Proof.
  destruct c as [[] [] [] [] [] [] [] []]; reflexivity.
Qed.

Lemma dumps_list_printable (l : list string) :
  all_chars printable (dumps_list l) = true.
Proof.
  unfold dumps_list. rewrite !all_chars_app.
  rewrite all_chars_concat; [done|done|].
  apply Forall_forall. intros s' Hs'%list_elem_of_In%in_map_iff.
  destruct Hs' as (s & <- & _). unfold dumps_str. rewrite !all_chars_app.
  rewrite all_chars_concat; [done|done|].
  apply Forall_forall. intros e He%list_elem_of_In%in_map_iff.
  destruct He as (c & <- & _). apply escape_char_printable.
Qed.

(** X17. Whatever characters the profile paths contain, the list of
    profiles is written into the settings text in printable ASCII on a
    single line, and the whole settings text consists of printable ASCII
    characters and line feeds only. *)
Theorem settings_content_is_ascii (profiles : list string) :
  all_chars printable (dumps_list profiles) = true ∧
  all_chars printable_or_newline (settings_content profiles) = true.
Proof.
  split; [apply dumps_list_printable|].
  unfold settings_content. rewrite !all_chars_app.
  rewrite (all_chars_weaken printable printable_or_newline (dumps_list profiles));
    [done| |apply dumps_list_printable].
  intros c Hc. unfold printable_or_newline. by rewrite Hc.
Qed.

(** ** Memory documents that are not turn logs *)

Lemma load_memory_document (agent_name : string) (memory : json) :
  load_json (memory_document_disk agent_name memory) (memory_path agent_name)
    = Ok memory.
Proof.
  unfold load_json, read, memory_document_disk. by rewrite lookup_singleton_eq.
Qed.

Lemma iter_text_or_object (turns : json) :
  text_or_object turns →
  ∃ l, iter turns = Ok l ∧ l ≠ [] ∧
       Forall (fun x => getitem x "role" = Raise TypeError) l.
Proof.
  destruct turns as [| | |[|c s]|items|[|[k v] kv]]; try done; intros _.
  - eexists. split; [done|]. split; [done|].
    unfold chars. apply Forall_forall.
    intros x Hx%list_elem_of_In%in_map_iff. by destruct Hx as (? & <- & _).
  - eexists. split; [done|]. split; [done|].
    apply Forall_forall.
    intros x Hx%list_elem_of_In%in_map_iff. by destruct Hx as (? & <- & _).
Qed.

Lemma completion_loop_type_error (l : list json) :
  l ≠ [] →
  Forall (fun x => getitem x "role" = Raise TypeError) l →
  completion_loop l = Raise TypeError.
Proof.
  destruct l as [|x l]; [done|]. intros _ [Hx _]%Forall_cons.
  cbn [completion_loop]. unfold system_turn_with. by rewrite Hx.
Qed.

Lemma count_loop_type_error (l : list json) (a s : Z) :
  l ≠ [] →
  Forall (fun x => getitem x "role" = Raise TypeError) l →
  count_loop l a s = Raise TypeError.
Proof.
  destruct l as [|x l]; [done|]. intros _ [Hx _]%Forall_cons.
  cbn [count_loop]. unfold system_turn_with. by rewrite Hx.
Qed.

(** X18. What the two readers do with a memory file that is valid JSON but
    not a turn log.  A document that is not an object, and a [turns] value
    that is [null], a boolean or a number, make both raise [TypeError]; an
    object without [turns] makes both raise [KeyError]; a [turns] value
    that is a non-empty string or object makes both raise [TypeError] at
    its first element.  An empty list, string or object as [turns] is
    accepted: the checker returns [false] and the calculator counts no
    attempt. *)
Theorem readers_on_other_documents (agent_name task_id : string) (elapsed : Q)
    (success : bool) :
  (∀ memory, not_an_object memory →
     check_task_completion (memory_document_disk agent_name memory)
       agent_name task_id = Raise TypeError ∧
     calculate_metrics (memory_document_disk agent_name memory)
       agent_name elapsed success = Raise TypeError) ∧
  (∀ fields, assoc "turns" fields = None →
     check_task_completion (memory_document_disk agent_name (JObj fields))
       agent_name task_id = Raise (KeyError "turns") ∧
     calculate_metrics (memory_document_disk agent_name (JObj fields))
       agent_name elapsed success = Raise (KeyError "turns")) ∧
  (∀ fields turns, assoc "turns" fields = Some turns →
     scalar turns ∨ text_or_object turns →
     check_task_completion (memory_document_disk agent_name (JObj fields))
       agent_name task_id = Raise TypeError ∧
     calculate_metrics (memory_document_disk agent_name (JObj fields))
       agent_name elapsed success = Raise TypeError) ∧
  (∀ fields turns, assoc "turns" fields = Some turns →
     empty_collection turns →
     check_task_completion (memory_document_disk agent_name (JObj fields))
       agent_name task_id = Ok false ∧
     ∃ m : metrics,
       calculate_metrics (memory_document_disk agent_name (JObj fields))
         agent_name elapsed success = Ok m ∧
       code_generation_attempts m = 0%Z ∧
       code_execution_success_rate m = 0%Q).
Proof.
  unfold check_task_completion, calculate_metrics.
  split; [|split; [|split]].
  - intros memory Hmem. rewrite !load_memory_document.
    by destruct memory.
  - intros fields Hturns. rewrite !load_memory_document. cbn.
    by rewrite Hturns.
  - intros fields turns Hturns Hkind. rewrite !load_memory_document. cbn.
    rewrite Hturns. cbn.
    destruct Hkind as [Hkind|Hkind].
    + by destruct turns.
    + destruct (iter_text_or_object _ Hkind) as (l & Hl & Hne & Hall).
      unfold reversed. rewrite Hl. cbn -[completion_loop count_loop].
      rewrite completion_loop_type_error, count_loop_type_error; [done|done|done| |].
      * intros Hrev. apply Hne. by rewrite <- (rev_involutive l), Hrev.
      * by apply Forall_rev.
  - intros fields turns Hturns Hkind. rewrite !load_memory_document. cbn.
    rewrite Hturns. cbn.
    destruct Hkind as [->|[->| ->]]; (split; [done|by eexists]).
Qed.

Lemma readers_on_other_documents_witness :
  check_task_completion
    (memory_document_disk "andy" (JObj [("turns", JNull)])) "andy" "collect_wood"
    = Raise TypeError ∧
  calculate_metrics
    (memory_document_disk "andy" (JObj [("turns", JNull)])) "andy" 12 true
    = Raise TypeError.
Proof.
  apply (proj1 (proj2 (proj2 (readers_on_other_documents "andy" "collect_wood" 12 true)))
           [("turns", JNull)] JNull).
  - reflexivity.
  - left. exact I.
Defined.

Lemma substring_of_iff_witness :
  substring_of "code : 2" "Task ended, code : 2." = true ↔
  ∃ before after, "Task ended, code : 2." = before +:+ "code : 2" +:+ after.
Proof. apply substring_of_iff. Defined.
